(** * Sydney, the trading assistant: chat widget and edge functions

  A shallow embedding of

  - [ChatInterface.handleSendMessage] (the React chat widget),
  - the [ai-chat] edge function ([supabase/functions/ai-chat/index.ts]),
  - the session-summary edge function,

  together with the properties of their intent detection, their
  statistics and their request handling. *)

From Stdlib Require Import String Ascii DecimalString.
From Stdlib Require Import List NArith ZArith QArith Bool Lia
  Permutation Sorted.
Import ListNotations.

Set Implicit Arguments.
Local Open Scope N_scope.

(** ** JavaScript values *)

Module JS.

(** A JavaScript string is a sequence of UTF-16 code units. *)
Definition jsstring := list N.

(** An ASCII literal of the source, as code units. *)
Definition units (s : string) : jsstring :=
  map N_of_ascii (list_ascii_of_string s).

(** [n.toString()] for a non-negative integer. *)
Definition toString (n : N) : jsstring :=
  units (DecimalString.NilZero.string_of_uint (N.to_uint n)).

(** The double quote, written by its code unit. *)
Definition dquote : N := 34.

(** LineTerminator: LF, CR, LS, PS. *)
Definition is_line_terminator (c : N) : bool :=
  (c =? 10) || (c =? 13) || (c =? 8232) || (c =? 8233).

(** WhiteSpace and LineTerminator, the set shared by the pattern class
    [\s] and by [String.prototype.trim]. *)
Definition is_space (c : N) : bool :=
  (c =? 9) || (c =? 10) || (c =? 11) || (c =? 12) || (c =? 13) ||
  (c =? 32) || (c =? 160) || (c =? 5760) ||
  ((8192 <=? c) && (c <=? 8202)) ||
  (c =? 8232) || (c =? 8233) || (c =? 8239) || (c =? 8287) ||
  (c =? 12288) || (c =? 65279).

Fixpoint trimStart (s : jsstring) : jsstring :=
  match s with
  | c :: s' => if is_space c then trimStart s' else s
  | [] => []
  end.

Definition trimEnd (s : jsstring) : jsstring := rev (trimStart (rev s)).

(** [s.trim()] *)
Definition trim (s : jsstring) : jsstring := trimEnd (trimStart s).

(** The empty string is the only falsy string. *)
Definition truthy_string (s : jsstring) : bool :=
  match s with [] => false | _ :: _ => true end.

(** Canonicalisation of a code unit under the [i] flag, as far as it
    decides a comparison with an ASCII letter of a pattern: a code unit
    at or above 128 is never canonicalised into the ASCII range. *)
Definition canonicalize (c : N) : N :=
  if (97 <=? c) && (c <=? 122) then c - 32 else c.

Definition eq_ignore_case (c p : N) : bool :=
  canonicalize c =? canonicalize p.

(** Equality of strings, [===]. *)
Definition string_eqb (a b : jsstring) : bool :=
  if list_eq_dec N.eq_dec a b then true else false.

(** *** Numbers

    A JavaScript number is a double.  Its finite values are rationals; an
    arithmetic operation on finite values is the exact operation followed
    by the rounding to the precision of the format, which is kept
    abstract, and a rounded result beyond the largest double is an
    infinity.  The two zeros are identified. *)
Class Rounding : Type := rnd : Q -> Q.

(** What the statements below need of the rounding: it is monotone and it
    leaves 0, 1 and 100 alone, as round-to-nearest does with every
    integer a double represents. *)
Class RoundingLaws (R : Rounding) : Prop := {
  rnd_monotone : forall x y : Q, (x <= y)%Q -> (rnd x <= rnd y)%Q;
  rnd_0 : (rnd 0 == 0)%Q;
  rnd_1 : (rnd 1 == 1)%Q;
  rnd_100 : (rnd 100 == 100)%Q
}.

(** Arithmetic without rounding. *)
Definition exact : Rounding := fun q => q.

Inductive number : Type :=
| Num (q : Q)
| PosInfinity
| NegInfinity
| NaN.

Definition of_nat (n : nat) : number := Num (inject_Z (Z.of_nat n)).

(** [Number.MAX_VALUE], (2 ^ 53 - 1) * 2 ^ 971. *)
Definition max_value : Q := inject_Z ((2 ^ 53 - 1) * 2 ^ 971).

(** The number a rounded result stands for: itself within the range of
    the format, an infinity beyond. *)
Definition of_rounded (q : Q) : number :=
  match (q ?= max_value)%Q with
  | Gt => PosInfinity
  | _ =>
      match (q ?= - max_value)%Q with
      | Lt => NegInfinity
      | _ => Num q
      end
  end.

Definition zero : number := Num 0.

Definition sign (q : Q) : comparison := (q ?= 0)%Q.

Definition add `{Rounding} (x y : number) : number :=
  match x, y with
  | NaN, _ | _, NaN => NaN
  | PosInfinity, NegInfinity | NegInfinity, PosInfinity => NaN
  | PosInfinity, _ | _, PosInfinity => PosInfinity
  | NegInfinity, _ | _, NegInfinity => NegInfinity
  | Num a, Num b => of_rounded (rnd (a + b))
  end.

Definition infinity_of (c : comparison) : number :=
  match c with
  | Gt => PosInfinity
  | Lt => NegInfinity
  | Eq => NaN
  end.

Definition mul `{Rounding} (x y : number) : number :=
  match x, y with
  | NaN, _ | _, NaN => NaN
  | Num a, Num b => of_rounded (rnd (a * b))
  | PosInfinity, Num b | Num b, PosInfinity => infinity_of (sign b)
  | NegInfinity, Num b | Num b, NegInfinity => infinity_of (CompOpp (sign b))
  | PosInfinity, PosInfinity | NegInfinity, NegInfinity => PosInfinity
  | PosInfinity, NegInfinity | NegInfinity, PosInfinity => NegInfinity
  end.

Definition div `{Rounding} (x y : number) : number :=
  match x, y with
  | NaN, _ | _, NaN => NaN
  | Num a, Num b =>
      match sign b with
      | Eq => infinity_of (sign a)
      | _ => of_rounded (rnd (a / b))
      end
  | Num _, _ => zero
  | PosInfinity, Num b =>
      match sign b with Lt => NegInfinity | _ => PosInfinity end
  | NegInfinity, Num b =>
      match sign b with Lt => PosInfinity | _ => NegInfinity end
  | _, _ => NaN
  end.

(** [x > 0] and [x < 0]. *)
Definition gt0 (x : number) : bool :=
  match x with
  | Num q => match sign q with Gt => true | _ => false end
  | PosInfinity => true
  | _ => false
  end.

Definition lt0 (x : number) : bool :=
  match x with
  | Num q => match sign q with Lt => true | _ => false end
  | NegInfinity => true
  | _ => false
  end.

(** 0 and NaN are the falsy numbers. *)
Definition truthy (x : number) : bool :=
  match x with
  | Num q => match sign q with Eq => false | _ => true end
  | NaN => false
  | _ => true
  end.

(** [x || 0] for a number, and for a count. *)
Definition or0 (x : number) : number := if truthy x then x else zero.

Definition or0_nat (x : option nat) : nat :=
  match x with
  | Some (S n) => S n
  | _ => 0%nat
  end.

(** [a.reduce((sum, x) => sum + f(x), 0)] *)
Definition sum_by `{Rounding} (A : Type) (f : A -> number) (a : list A)
  : number :=
  fold_left (fun sum x => add sum (f x)) a zero.

(** What the sum of a [reduce] is measured against: the exact sum of
    finite amounts, the exact running sums a [reduce] from [acc] goes
    through, and the amounts a double holds as they are. *)
Definition exact_sum (l : list Q) : Q := fold_right Qplus 0%Q l.

Fixpoint running_sums (acc : Q) (l : list Q) : list Q :=
  match l with
  | [] => []
  | x :: l' => (acc + x)%Q :: running_sums (acc + x)%Q l'
  end.

Definition representable `{Rounding} (q : Q) : bool :=
  Qeq_bool (rnd q) q && Qle_bool (- max_value) q && Qle_bool q max_value.

(** A thrown [Error] is known by its [message]. *)
Inductive result (A : Type) : Type :=
| Ok (a : A)
| Err (message : jsstring).
Arguments Err {A}.

End JS.

(** ** Regular expressions, with the backtracking order of [RegExp.prototype.exec] *)

Module RegExp.
Import JS.

(** [.] without the [s] flag. *)
Definition dot (c : N) : bool := negb (is_line_terminator c).

(** Whether [s] is empty or starts outside the class. *)
Definition stops (cls : N -> bool) (s : jsstring) : Prop :=
  match s with
  | c :: _ => cls c = false
  | [] => True
  end.

(** Equality of two strings up to the case of their letters. *)
Definition same_letters (a b : jsstring) : Prop :=
  Forall2 (fun c p => eq_ignore_case c p = true) a b.

(** The constructs the widget's pattern is built from. *)
Inductive regex : Type :=
| Str (p : jsstring)              (* literal characters, flag [i] *)
| Seq (r1 r2 : regex)
| Alt (r1 r2 : regex)             (* [r1|r2] *)
| Opt (r : regex)                 (* [(?:r)?], greedy *)
| Plus (cls : N -> bool)          (* [c+], greedy *)
| PlusLazy (cls : N -> bool)      (* [c+?] *)
| Group (r : regex)               (* [(r)], capture group 1 *)
| Eol.                            (* [$], no [m] flag *)

(** The only capture of the pattern: [None] while group 1 is unset. *)
Definition captures := option jsstring.

Section Matcher.
Variable R : Type.

(** A continuation receives the rest of the input and the captures. *)
Definition cont := jsstring -> captures -> option R.

Fixpoint match_str (p s : jsstring) : option jsstring :=
  match p, s with
  | [], _ => Some s
  | a :: p', c :: s' => if eq_ignore_case c a then match_str p' s' else None
  | _ :: _, [] => None
  end.

(** [c*] greedy: one more character first, the continuation after. *)
Fixpoint star_greedy (cls : N -> bool) (s : jsstring)
         (k : jsstring -> option R) : option R :=
  match s with
  | c :: s' =>
      if cls c then
        match star_greedy cls s' k with
        | Some r => Some r
        | None => k s
        end
      else k s
  | [] => k []
  end.

(** [c*?] lazy: the continuation first, one more character after. *)
Fixpoint star_lazy (cls : N -> bool) (s : jsstring)
         (k : jsstring -> option R) : option R :=
  match k s with
  | Some r => Some r
  | None =>
      match s with
      | c :: s' => if cls c then star_lazy cls s' k else None
      | [] => None
      end
  end.

Definition plus_with (star : (N -> bool) -> jsstring ->
                             (jsstring -> option R) -> option R)
           (cls : N -> bool) (s : jsstring)
           (k : jsstring -> option R) : option R :=
  match s with
  | c :: s' => if cls c then star cls s' k else None
  | [] => None
  end.

(** The matcher of [r]: the first success in backtracking order. *)
Fixpoint run (r : regex) (s : jsstring) (cap : captures) (k : cont)
  : option R :=
  match r with
  | Str p =>
      match match_str p s with
      | Some s' => k s' cap
      | None => None
      end
  | Seq r1 r2 => run r1 s cap (fun s' cap' => run r2 s' cap' k)
  | Alt r1 r2 =>
      match run r1 s cap k with
      | Some x => Some x
      | None => run r2 s cap k
      end
  | Opt r1 =>
      match run r1 s cap k with
      | Some x => Some x
      | None => k s cap
      end
  | Plus cls => plus_with star_greedy cls s (fun s' => k s' cap)
  | PlusLazy cls => plus_with star_lazy cls s (fun s' => k s' cap)
  | Group r1 =>
      run r1 s cap
          (fun s' _ => k s' (Some (firstn (length s - length s') s)))
  | Eol =>
      match s with
      | [] => k [] cap
      | _ :: _ => None
      end
  end.
End Matcher.

(** The continuation of [exec]: the match is complete. *)
Definition accept : cont captures := fun _ cap => Some cap.

(** [exec] without the [g] flag: the leftmost start index that matches,
    the end of the input included.  The result is capture group 1. *)
Fixpoint exec (r : regex) (s : jsstring) : option captures :=
  match run r s None accept with
  | Some cap => Some cap
  | None =>
      match s with
      | _ :: s' => exec r s'
      | [] => None
      end
  end.

(** What a regular expression stands for: [matches r m rest] when [r]
    can consume [m] in front of [rest]. *)
Inductive matches : regex -> jsstring -> jsstring -> Prop :=
| M_Str p m rest : same_letters m p -> matches (Str p) m rest
| M_Seq r1 r2 m1 m2 rest :
    matches r1 m1 (m2 ++ rest) -> matches r2 m2 rest ->
    matches (Seq r1 r2) (m1 ++ m2) rest
| M_AltL r1 r2 m rest : matches r1 m rest -> matches (Alt r1 r2) m rest
| M_AltR r1 r2 m rest : matches r2 m rest -> matches (Alt r1 r2) m rest
| M_OptSome r m rest : matches r m rest -> matches (Opt r) m rest
| M_OptNone r rest : matches (Opt r) [] rest
| M_Plus cls m rest :
    m <> [] -> Forall (fun c => cls c = true) m -> matches (Plus cls) m rest
| M_PlusLazy cls m rest :
    m <> [] -> Forall (fun c => cls c = true) m ->
    matches (PlusLazy cls) m rest
| M_Group r m rest : matches r m rest -> matches (Group r) m rest
| M_Eol : matches Eol [] [].

(** Whether every match of [r] sets capture group 1. *)
Fixpoint binds (r : regex) : bool :=
  match r with
  | Group _ => true
  | Seq r1 r2 => binds r1 || binds r2
  | Alt r1 r2 => binds r1 && binds r2
  | _ => false
  end.

End RegExp.

(** ** The chat widget: [ChatInterface] *)

Module ChatInterface.
Import JS RegExp.

Inductive Role : Type := user | assistant.

(** [ChatMessage] of [aiService]. *)
Record ChatMessage : Type := mkChatMessage {
  msg_id : jsstring;
  msg_role : Role;
  msg_content : jsstring;
  msg_timestamp : N
}.

(** The authenticated user of [useAuth], as far as the widget reads it. *)
Record User : Type := mkUser { user_id : jsstring }.

(** How a call into a collaborator ends. *)
Inductive outcome (A : Type) : Type :=
| Returns (a : A)
| Throws.
Arguments Throws {A}.

Record ChatInterfaceProps : Type := mkProps {
  currentSessionId : option jsstring;
  onSessionSwitch : option (jsstring -> outcome unit)
}.

(** The component state [handleSendMessage] reads and writes. *)
Record State : Type := mkState {
  messages : list ChatMessage;
  inputMessage : jsstring;
  isLoading : bool
}.

(** What the widget does not own: the signed-in user, the chat service
    and the clock ([Date.now()] when the turn starts and when it ends). *)
Record Env : Type := mkEnv {
  auth_user : option User;
  sendChatMessage : jsstring -> jsstring -> option jsstring -> outcome jsstring;
  now_submit : N;
  now_reply : N
}.

(** Calls that leave the component during a turn, in program order. *)
Inductive Effect : Type :=
| CallOnSessionSwitch (sessionName : jsstring)
| CallSendChatMessage (message userId : jsstring) (sessionId : option jsstring)
| ToastError (text : jsstring)
| ConsoleError.

(** [/(?:load|switch to|open)\s+(?:the\s+)?(.+?)(?:\s+session)?$/i], in
    three parts: the verbs, the optional article with the captured name,
    and what may follow the name. *)
Definition verbs : list jsstring :=
  [units "load"; units "switch to"; units "open"].

Definition verbPattern : regex :=
  Alt (Str (units "load")) (Alt (Str (units "switch to")) (Str (units "open"))).

Definition tailPattern : regex :=
  Seq (Opt (Seq (Plus is_space) (Str (units "session")))) Eol.

Definition switchPattern : regex :=
  Seq verbPattern
 (Seq (Plus is_space)
 (Seq (Opt (Seq (Str (units "the")) (Plus is_space)))
 (Seq (Group (PlusLazy dot))
      tailPattern))).

(** [currentInput.match(...)]: [None] for [null], else capture group 1. *)
Definition sessionSwitchMatch (currentInput : jsstring) : option captures :=
  exec switchPattern currentInput.

(** The text of the acknowledgement. *)
Definition acknowledgement (sessionName : jsstring) : jsstring :=
  units "I'll switch you to the " ++ [dquote] ++ sessionName ++ [dquote] ++
  units " session. Let me find that for you!".

Definition toastText : jsstring := units "Failed to get Sydney's response".

(** The [catch] and [finally] blocks. *)
Definition failed (st : State) (done : list Effect) : State * list Effect :=
  (mkState (messages st) (inputMessage st) false,
   done ++ [ToastError toastText; ConsoleError]).

(** One run of [handleSendMessage], from the click to the end of the
    [finally] block, with nothing else happening to the widget in
    between. *)
Definition handleSendMessage (props : ChatInterfaceProps) (env : Env)
           (st : State) : State * list Effect :=
  match auth_user env with
  | None => (st, [])
  | Some u =>
    if negb (truthy_string (trim (inputMessage st))) || isLoading st
    then (st, [])
    else
      let userMessage :=
        mkChatMessage (toString (now_submit env)) user
                      (trim (inputMessage st)) (now_submit env) in
      let currentInput := trim (inputMessage st) in
      let st1 := mkState (messages st ++ [userMessage]) [] true in
      match sessionSwitchMatch currentInput, onSessionSwitch props with
      | Some m, Some callback =>
          match m with
          | None => failed st1 []
          | Some group1 =>
              let sessionName := trim group1 in
              match callback sessionName with
              | Throws => failed st1 [CallOnSessionSwitch sessionName]
              | Returns _ =>
                  let assistantMessage :=
                    mkChatMessage (toString (now_reply env + 1)) assistant
                                  (acknowledgement sessionName)
                                  (now_reply env) in
                  (mkState (messages st1 ++ [assistantMessage]) [] false,
                   [CallOnSessionSwitch sessionName])
              end
          end
      | _, _ =>
          match sendChatMessage env currentInput (user_id u)
                                (currentSessionId props) with
          | Throws =>
              failed st1 [CallSendChatMessage currentInput (user_id u)
                                              (currentSessionId props)]
          | Returns aiResponse =>
              let assistantMessage :=
                mkChatMessage (toString (now_reply env + 1)) assistant
                              aiResponse (now_reply env) in
              (mkState (messages st1 ++ [assistantMessage]) [] false,
               [CallSendChatMessage currentInput (user_id u)
                                    (currentSessionId props)])
          end
      end
  end.

(** [clearChat] *)
Definition clearChat (st : State) : State :=
  mkState [] (inputMessage st) (isLoading st).

(** [handleSendMessage] is an [async] function.  It runs without
    interruption up to [await aiService.sendChatMessage(...)], which only
    a general query reaches, and the rest of it runs when the chat
    service has settled.  In between the widget stays live: the input can
    be typed into and "Clear chat" pressed, while the send button is
    disabled.  [start] is the first part and tells whether the turn is
    over or what it waits for. *)
Inductive Progress : Type :=
| Finished
| Awaiting (message userId : jsstring) (sessionId : option jsstring).

Definition start (props : ChatInterfaceProps) (env : Env) (st : State)
  : State * list Effect * Progress :=
  match auth_user env with
  | None => (st, [], Finished)
  | Some u =>
    if negb (truthy_string (trim (inputMessage st))) || isLoading st
    then (st, [], Finished)
    else
      let userMessage :=
        mkChatMessage (toString (now_submit env)) user
                      (trim (inputMessage st)) (now_submit env) in
      let currentInput := trim (inputMessage st) in
      let st1 := mkState (messages st ++ [userMessage]) [] true in
      match sessionSwitchMatch currentInput, onSessionSwitch props with
      | Some m, Some callback =>
          match m with
          | None => (failed st1 [], Finished)
          | Some group1 =>
              let sessionName := trim group1 in
              match callback sessionName with
              | Throws =>
                  (failed st1 [CallOnSessionSwitch sessionName], Finished)
              | Returns _ =>
                  let assistantMessage :=
                    mkChatMessage (toString (now_reply env + 1)) assistant
                                  (acknowledgement sessionName)
                                  (now_reply env) in
                  (mkState (messages st1 ++ [assistantMessage]) [] false,
                   [CallOnSessionSwitch sessionName], Finished)
              end
          end
      | _, _ =>
          (st1,
           [CallSendChatMessage currentInput (user_id u)
                                (currentSessionId props)],
           Awaiting currentInput (user_id u) (currentSessionId props))
      end
  end.

(** The second part, from the settling of the chat service to the end of
    the [finally] block, run on the state [mid] the widget has by then:
    [setMessages(prev => [...prev, assistantMessage])] appends to the
    transcript of that moment, and the input is not written. *)
Definition settle (env : Env) (answer : outcome jsstring) (mid : State)
  : State * list Effect :=
  match answer with
  | Returns aiResponse =>
      let assistantMessage :=
        mkChatMessage (toString (now_reply env + 1)) assistant
                      aiResponse (now_reply env) in
      (mkState (messages mid ++ [assistantMessage]) (inputMessage mid) false,
       [])
  | Throws => failed mid []
  end.

(** The intent a message is handled as: the session-switch branch is the
    one guarded by [sessionSwitchMatch && onSessionSwitch]. *)
Inductive Intent : Type :=
| SessionSwitch (name : jsstring)
| GeneralQuery.

Definition classify (props : ChatInterfaceProps) (currentInput : jsstring)
  : Intent :=
  match sessionSwitchMatch currentInput, onSessionSwitch props with
  | Some (Some group1), Some _ => SessionSwitch (trim group1)
  | _, _ => GeneralQuery
  end.

(** [disabled={!inputMessage.trim() || isLoading}] of the send button. *)
Definition sendDisabled (st : State) : bool :=
  negb (truthy_string (trim (inputMessage st))) || isLoading st.

(** The calls to a collaborator among the effects of a turn. *)
Definition calls (done : list Effect) : list Effect :=
  filter (fun e => match e with
                   | CallOnSessionSwitch _ | CallSendChatMessage _ _ _ => true
                   | _ => false
                   end) done.

End ChatInterface.

(** ** The store, the completion backend and the shapes both edge
    functions share *)

Module Edge.
Import JS.

Inductive Side : Type := Long | Short.

(** A row of [trades]; [created_at] is the instant the column orders by. *)
Record Trade : Type := mkTrade {
  trade_id : jsstring;
  session_id : jsstring;
  margin : number;
  roi : number;
  entry_side : Side;
  profit_loss : number;
  comments : option jsstring;
  created_at : Z
}.

(** A row of [trading_sessions]. *)
Record TradingSession : Type := mkTradingSession {
  ts_id : jsstring;
  ts_user_id : jsstring;
  ts_name : jsstring;
  initial_capital : number;
  current_capital : number;
  ts_created_at : Z;
  updated_at : Z
}.

(** A row of [trades] with the embedded [trading_sessions!inner(name, user_id)]. *)
Record JoinedTrade : Type := mkJoinedTrade {
  jt_trade : Trade;
  jt_session_name : jsstring;
  jt_session_user_id : jsstring
}.

(** The relational store behind the Supabase client: its two tables, and
    whether a query on each of them fails. *)
Record Database : Type := mkDatabase {
  trading_sessions : list TradingSession;
  trades : list Trade;
  sessions_error : option jsstring;
  trades_error : option jsstring
}.

(** [{ data, error }] *)
Record QueryResult (A : Type) : Type := mkQueryResult {
  data : option A;
  error : option jsstring
}.

Section Order.
Variable A : Type.
Variable key : A -> Z.

Fixpoint insert_desc (x : A) (l : list A) : list A :=
  match l with
  | [] => [x]
  | y :: l' => if (key y <? key x)%Z then x :: l else y :: insert_desc x l'
  end.

(** [.order(column, { ascending: false })] *)
Definition order_desc (l : list A) : list A := fold_right insert_desc [] l.
End Order.

Definition answer (A : Type) (failure : option jsstring) (rows : A)
  : QueryResult A :=
  match failure with
  | Some e => mkQueryResult None (Some e)
  | None => mkQueryResult (Some rows) None
  end.

(** [from('trading_sessions').select('*').eq('user_id', userId)
     .order('created_at', { ascending: false })] *)
Definition select_sessions_of_user (d : Database) (userId : jsstring)
  : QueryResult (list TradingSession) :=
  answer (sessions_error d)
    (order_desc ts_created_at
       (filter (fun s => string_eqb (ts_user_id s) userId)
               (trading_sessions d))).

(** The session a trade belongs to; [trading_sessions.id] is a key. *)
Definition session_of (d : Database) (t : Trade) : option TradingSession :=
  find (fun s => string_eqb (ts_id s) (session_id t)) (trading_sessions d).

Definition join_user (d : Database) (userId : jsstring) (t : Trade)
  : list JoinedTrade :=
  match session_of d t with
  | Some s =>
      if string_eqb (ts_user_id s) userId
      then [mkJoinedTrade t (ts_name s) (ts_user_id s)]
      else []
  | None => []
  end.

(** [from('trades').select('*, trading_sessions!inner(name, user_id)')
     .eq('trading_sessions.user_id', userId)
     .order('created_at', { ascending: false })] *)
Definition select_trades_of_user (d : Database) (userId : jsstring)
  : QueryResult (list JoinedTrade) :=
  answer (trades_error d)
    (order_desc (fun r => created_at (jt_trade r))
       (flat_map (join_user d userId) (trades d))).

(** [from('trading_sessions').select('*').eq('id', sessionId)
     .eq('user_id', userId).single()]: an error unless exactly one row. *)
Definition select_single_session (d : Database) (sessionId userId : jsstring)
  : QueryResult TradingSession :=
  match sessions_error d with
  | Some e => mkQueryResult None (Some e)
  | None =>
      match filter (fun s => string_eqb (ts_id s) sessionId &&
                             string_eqb (ts_user_id s) userId)
                   (trading_sessions d) with
      | [s] => mkQueryResult (Some s) None
      | _ => mkQueryResult None
               (Some (units "JSON object requested, multiple (or no) rows returned"))
      end
  end.

(** [from('trades').select('*').eq('session_id', sessionId)
     .order('created_at', { ascending: false })] *)
Definition select_trades_of_session (d : Database) (sessionId : jsstring)
  : QueryResult (list Trade) :=
  answer (trades_error d)
    (order_desc created_at
       (filter (fun t => string_eqb (session_id t) sessionId) (trades d))).

(** The values the chat prompt interpolates, before they are printed. *)
Record ChatPrompt : Type := mkChatPrompt {
  cp_totalSessions : nat;
  cp_totalTrades : nat;
  cp_totalProfit : number;
  cp_winRate : number;
  cp_winningTrades : nat;
  cp_losingTrades : nat;
  cp_recentSessions : option (list TradingSession);
  cp_recentTrades : option (list JoinedTrade);
  cp_currentDate : N
}.

(** The values the summary prompt interpolates. *)
Record SummaryPrompt : Type := mkSummaryPrompt {
  sp_session : TradingSession;
  sp_totalTrades : nat;
  sp_totalProfit : number;
  sp_winRate : number;
  sp_winningTrades : nat;
  sp_losingTrades : nat;
  sp_totalMargin : number;
  sp_avgROI : number;
  sp_trades : option (list Trade)
}.

Inductive Content : Type :=
| ChatSystemPrompt (p : ChatPrompt)
| SummarySystemPrompt (p : SummaryPrompt)
| Text (s : jsstring).

Inductive MessageRole : Type := system | user.

(** The body posted to [https://api.openai.com/v1/chat/completions], with
    the bearer credential of the [Authorization] header. *)
Record CompletionRequest : Type := mkCompletionRequest {
  bearer : jsstring;
  model : jsstring;
  request_messages : list (MessageRole * Content);
  max_tokens : N;
  temperature : Q
}.

Record Usage : Type := mkUsage {
  prompt_tokens : N;
  completion_tokens : N;
  total_tokens : N
}.

(** What [response.json()] can resolve to.  The body the completion API
    documents is [{ choices: [{ message: { content } }], usage }]; a body
    may also be [null], or an object whose [choices] member is missing or
    [null].  A body that is no object has no [choices] member either, and
    a content, where there is one, is a string. *)
Record Choice : Type := mkChoice { message_content : option (option jsstring) }.

Inductive Choices : Type :=
| NoChoices
| NullChoices
| ChoiceList (l : list Choice).

Inductive AiData : Type :=
| JsonNull
| JsonObject (choices : Choices) (usage : option Usage).

(** [aiData.usage], read once the message has been read. *)
Definition usage (d : AiData) : option Usage :=
  match d with
  | JsonObject _ u => u
  | JsonNull => None
  end.

(** The body of the documented shape. *)
Definition mkAiData (l : list Choice) (u : option Usage) : AiData :=
  JsonObject (ChoiceList l) u.

Record HttpResponse : Type := mkHttpResponse {
  http_status : N;
  http_text : jsstring;
  http_json : result AiData
}.

(** [response.ok] *)
Definition ok (r : HttpResponse) : bool :=
  (200 <=? http_status r) && (http_status r <=? 299).

(** What an edge function runs in. *)
Record World : Type := mkWorld {
  OPENAI_API_KEY : option jsstring;
  database : Database;
  fetch : CompletionRequest -> result HttpResponse;
  today : N
}.

(** Calls that leave the function, in program order: a query with its
    [eq] filters, the completion request, a line on the console. *)
Inductive Effect : Type :=
| Select (table : jsstring) (eq_filters : list (jsstring * jsstring))
| Fetch (request : CompletionRequest)
| ConsoleError (label : jsstring).

Inductive Body : Type :=
| NoBody
| ChatReply (message : jsstring) (usage : option Usage)
| SummaryReply (summary : jsstring) (usage : option Usage)
| Failure (error details : jsstring).

Record Response : Type := mkResponse {
  status : N;
  cors : bool;
  body : Body
}.

(** The incoming request: its method and what [req.json()] resolves to. *)
Record Request (A : Type) : Type := mkRequest {
  method : jsstring;
  json : result A
}.

(** *** Code that may throw and that leaves a trace of its calls *)

Definition M (A : Type) : Type := result A * list Effect.

Definition ret (A : Type) (a : A) : M A := (Ok a, []).

Definition throw (A : Type) (message : jsstring) : M A := (Err message, []).
Arguments throw {A}.

Definition perform (e : Effect) : M unit := (Ok tt, [e]).

Definition lift (A : Type) (r : result A) : M A := (r, []).

Definition bind (A B : Type) (m : M A) (f : A -> M B) : M B :=
  match m with
  | (Ok a, done) => let (r, more) := f a in (r, done ++ more)
  | (Err message, done) => (Err message, done)
  end.

Notation "x <- m ;; k" := (bind m (fun x => k))
  (at level 61, m at next level, right associativity).
Notation "m ;;; k" := (bind m (fun _ => k))
  (at level 61, right associativity).

(** [aiData.choices[0]?.message?.content]: only the steps after
    [choices[0]] are optional, so reading [choices] of [null], or index 0
    of a missing or [null] member, throws a [TypeError]. *)
Definition first_content (d : AiData) : result (option jsstring) :=
  match d with
  | JsonNull =>
      Err (units "Cannot read properties of null (reading 'choices')")
  | JsonObject NoChoices _ =>
      Err (units "Cannot read properties of undefined (reading '0')")
  | JsonObject NullChoices _ =>
      Err (units "Cannot read properties of null (reading '0')")
  | JsonObject (ChoiceList l) _ =>
      Ok match l with
         | c :: _ =>
             match message_content c with
             | Some (Some text) => Some text
             | _ => None
             end
         | [] => None
         end
  end.

(** [content || fallback] *)
Definition or_text (content : option jsstring) (fallback : jsstring)
  : jsstring :=
  match content with
  | Some (c :: text) => c :: text
  | _ => fallback
  end.

Definition not_configured : jsstring := units "OpenAI API key not configured".

(** [Deno.env.get('OPENAI_API_KEY')] followed by [if (!openAIApiKey) throw]. *)
Definition require_key (w : World) : M jsstring :=
  match OPENAI_API_KEY w with
  | Some (c :: key) => ret (c :: key)
  | _ => throw not_configured
  end.

(** The [fetch] of the completion and the checks on what comes back. *)
Definition complete (w : World) (request : CompletionRequest) : M AiData :=
  perform (Fetch request) ;;;
  openAIResponse <- lift (fetch w request) ;;
  if ok openAIResponse
  then lift (http_json openAIResponse)
  else
    perform (ConsoleError (units "OpenAI API error:")) ;;;
    throw (units "OpenAI API request failed: " ++
           toString (http_status openAIResponse)).

(** [x || 0] when [x] comes out of an optional chain. *)
Definition or0_opt (x : option number) : number :=
  match x with
  | Some v => or0 v
  | None => zero
  end.

(** The [catch] block of an edge function around its [try] block. *)
Definition respond (label error : jsstring) (attempt : M Body)
  : Response * list Effect :=
  match attempt with
  | (Ok b, done) => (mkResponse 200 true b, done)
  | (Err message, done) =>
      (mkResponse 500 true (Failure error message),
       done ++ [ConsoleError label])
  end.

Definition preflight : Response * list Effect :=
  (mkResponse 200 true NoBody, []).

(** The completion requests among the calls made. *)
Definition requests (done : list Effect) : list CompletionRequest :=
  flat_map (fun e => match e with Fetch r => [r] | _ => [] end) done.

Fixpoint starts_with (needle hay : jsstring) : bool :=
  match needle, hay with
  | [], _ => true
  | a :: needle', c :: hay' => (a =? c) && starts_with needle' hay'
  | _ :: _, [] => false
  end.

(** [hay.includes(needle)] *)
Fixpoint occurs (needle hay : jsstring) : bool :=
  starts_with needle hay ||
  match hay with
  | _ :: hay' => occurs needle hay'
  | [] => false
  end.

(** [shown] is the [n] most recent rows of [all], the newest first. *)
Definition most_recent (A : Type) (key : A -> Z) (n : nat)
           (all shown : list A) : Prop :=
  length shown = Nat.min n (length all) /\
  StronglySorted (fun a b => (key b <= key a)%Z) shown /\
  exists older,
    Permutation all (shown ++ older) /\
    forall a b, In a shown -> In b older -> (key b <= key a)%Z.

End Edge.

(** ** The chat edge function, [supabase/functions/ai-chat/index.ts] *)

Module AiChat.
Import JS Edge.

Record ChatRequest : Type := mkChatRequest {
  message : jsstring;
  sessionId : option jsstring;
  userId : jsstring
}.

Section Stats.
Context `{Rounding}.
Variable trades : option (list JoinedTrade).

Definition pl (r : JoinedTrade) : number := profit_loss (jt_trade r).

Definition totalProfit : number :=
  or0_opt (option_map (sum_by pl) trades).

Definition winningTrades : nat :=
  or0_nat (option_map (fun l => length (filter (fun r => gt0 (pl r)) l)) trades).

Definition losingTrades : nat :=
  or0_nat (option_map (fun l => length (filter (fun r => lt0 (pl r)) l)) trades).

Definition winRate : number :=
  match trades with
  | Some l =>
      match length l with
      | O => zero
      | S _ => mul (div (of_nat winningTrades) (of_nat (length l))) (Num 100)
      end
  | None => zero
  end.
End Stats.

Definition systemPrompt `{Rounding} (w : World)
           (sessions : option (list TradingSession))
           (trades : option (list JoinedTrade)) : ChatPrompt :=
  mkChatPrompt
    (or0_nat (option_map (@length _) sessions))
    (or0_nat (option_map (@length _) trades))
    (totalProfit trades)
    (winRate trades)
    (winningTrades trades)
    (losingTrades trades)
    (option_map (firstn 5) sessions)
    (option_map (firstn 10) trades)
    (today w).

Definition fallback : jsstring := units "Sorry, I could not process your request.".

(** The [try] block. *)
Definition attempt `{Rounding} (w : World) (req : Request ChatRequest) : M Body :=
  r <- lift (json req) ;;
  perform (Select (units "trading_sessions")
                  [(units "user_id", userId r)]) ;;;
  let sessions := select_sessions_of_user (database w) (userId r) in
  match error sessions with
  | Some _ =>
      perform (ConsoleError (units "Sessions error:")) ;;;
      throw (units "Failed to fetch sessions")
  | None =>
      perform (Select (units "trades")
                      [(units "trading_sessions.user_id", userId r)]) ;;;
      let trades := select_trades_of_user (database w) (userId r) in
      match error trades with
      | Some _ =>
          perform (ConsoleError (units "Trades error:")) ;;;
          throw (units "Failed to fetch trades")
      | None =>
          let prompt := systemPrompt w (data sessions) (data trades) in
          openAIApiKey <- require_key w ;;
          aiData <- complete w
            (mkCompletionRequest openAIApiKey (units "gpt-4o-mini")
               [(system, ChatSystemPrompt prompt); (user, Text (message r))]
               1000 (7 # 10)) ;;
          content <- lift (first_content aiData) ;;
          ret (ChatReply (or_text content fallback) (usage aiData))
      end
  end.

(** The handler given to [Deno.serve]. *)
Definition serve `{Rounding} (w : World) (req : Request ChatRequest)
  : Response * list Effect :=
  if string_eqb (method req) (units "OPTIONS")
  then preflight
  else respond (units "Error in AI chat function:")
               (units "Failed to process chat request")
               (attempt w req).

End AiChat.

(** ** The session-summary edge function *)

Module SessionSummary.
Import JS Edge.

Record SummaryRequest : Type := mkSummaryRequest {
  sessionId : jsstring;
  userId : jsstring
}.

Section Stats.
Context `{Rounding}.
Variable trades : option (list Trade).

Definition totalTrades : nat := or0_nat (option_map (@length _) trades).

Definition totalProfit : number :=
  or0_opt (option_map (sum_by profit_loss) trades).

Definition winningTrades : nat :=
  or0_nat (option_map
             (fun l => length (filter (fun t => gt0 (profit_loss t)) l)) trades).

Definition losingTrades : nat :=
  or0_nat (option_map
             (fun l => length (filter (fun t => lt0 (profit_loss t)) l)) trades).

Definition winRate : number :=
  match totalTrades with
  | O => zero
  | S _ => mul (div (of_nat winningTrades) (of_nat totalTrades)) (Num 100)
  end.

Definition totalMargin : number :=
  or0_opt (option_map (sum_by margin) trades).

(** [trades.reduce(...)] on [null] cannot be reached: [totalTrades] is 0
    then. *)
Definition avgROI : number :=
  match totalTrades, trades with
  | S _, Some l => div (sum_by roi l) (of_nat totalTrades)
  | _, _ => zero
  end.
End Stats.

Definition systemPrompt `{Rounding} (session : TradingSession)
           (trades : option (list Trade)) : SummaryPrompt :=
  mkSummaryPrompt session
    (totalTrades trades) (totalProfit trades) (winRate trades)
    (winningTrades trades) (losingTrades trades)
    (totalMargin trades) (avgROI trades) trades.

Definition fallback : jsstring := units "Unable to generate summary.".

(** The [try] block. *)
Definition attempt `{Rounding} (w : World) (req : Request SummaryRequest)
  : M Body :=
  r <- lift (json req) ;;
  perform (Select (units "trading_sessions")
                  [(units "id", sessionId r); (units "user_id", userId r)]) ;;;
  let found := select_single_session (database w) (sessionId r) (userId r) in
  match error found, data found with
  | None, Some session =>
      perform (Select (units "trades")
                      [(units "session_id", sessionId r)]) ;;;
      let trades := select_trades_of_session (database w) (sessionId r) in
      match error trades with
      | Some _ =>
          perform (ConsoleError (units "Trades error:")) ;;;
          throw (units "Failed to fetch trades")
      | None =>
          let prompt := systemPrompt session (data trades) in
          openAIApiKey <- require_key w ;;
          aiData <- complete w
            (mkCompletionRequest openAIApiKey (units "gpt-4o-mini")
               [(system, SummarySystemPrompt prompt)]
               800 (7 # 10)) ;;
          content <- lift (first_content aiData) ;;
          ret (SummaryReply (or_text content fallback) (usage aiData))
      end
  | _, _ =>
      perform (ConsoleError (units "Session error:")) ;;;
      throw (units "Session not found")
  end.

(** The handler given to [Deno.serve]. *)
Definition serve `{Rounding} (w : World) (req : Request SummaryRequest)
  : Response * list Effect :=
  if string_eqb (method req) (units "OPTIONS")
  then preflight
  else respond (units "Error generating session summary:")
               (units "Failed to generate session summary")
               (attempt w req).

End SessionSummary.

(** ** Sample data: one user with one session of three trades *)

Module Sample.
Import JS Edge.

Definition session1 : TradingSession :=
  mkTradingSession (units "s1") (units "u1") (units "BTC 5 Minute")
                   (Num 1000) (Num 1050) 10 40.

Definition trade (i : string) (pl : Q) (at_ : Z) : Trade :=
  mkTrade (units i) (units "s1") (Num 10) (Num pl) Long (Num pl) None at_.

Definition store : Database :=
  mkDatabase [session1]
             [trade "t1" 100 20; trade "t2" (-50) 30; trade "t3" 0 40]
             None None.

Definition reply : HttpResponse :=
  mkHttpResponse 200 []
    (Ok (mkAiData [mkChoice (Some (Some (units "Well done.")))] None)).

Definition world : World :=
  mkWorld (Some (units "sk-sample")) store (fun _ => Ok reply) 20000.

Definition world_without_key : World :=
  mkWorld None store (fun _ => Ok reply) 20000.

Definition post (A : Type) (a : A) : Request A := mkRequest (units "POST") (Ok a).

Definition chat : Request AiChat.ChatRequest :=
  post (AiChat.mkChatRequest (units "How am I doing?") None (units "u1")).

Definition summary : Request SessionSummary.SummaryRequest :=
  post (SessionSummary.mkSummaryRequest (units "s1") (units "u1")).

(** A longer history: six sessions and twelve trades of user [u1], with
    profits from -5 to 6, next to a session and a trade of user [u2]. *)
Definition busy_store : Database :=
  mkDatabase
    (mkTradingSession (units "other") (units "u2") (units "Gold")
                      (Num 500) (Num 400) 3 3 ::
     map (fun i => mkTradingSession (toString i) (units "u1") (units "Session")
                     (Num 1000) (Num 1000) (Z.of_N i) (Z.of_N i))
         [4; 2; 6; 1; 5; 3]%N)
    (mkTrade (units "x") (units "other") (Num 10) (Num (-10)) Short
             (Num (-100)) None 50 ::
     map (fun i => mkTrade (toString (100 + i)) (toString 1) (Num 10) (Num 1)
                     Long (Num (inject_Z (Z.of_N i) - 6)) None (Z.of_N i))
         [7; 3; 12; 1; 9; 5; 2; 11; 4; 8; 6; 10]%N)
    None None.

Definition busy_world : World :=
  mkWorld (Some (units "sk-sample")) busy_store (fun _ => Ok reply) 20000.

(** The profit of a trade as a rational, 0 where it is not finite. *)
Definition profit (t : JoinedTrade) : Q :=
  match AiChat.pl t with
  | Num q => q
  | _ => 0%Q
  end.

(** What both functions send for this user and this session. *)
Definition chat_prompt : ChatPrompt :=
  Eval vm_compute in
    AiChat.systemPrompt (H := exact) world
      (data (select_sessions_of_user store (units "u1")))
      (data (select_trades_of_user store (units "u1"))).

Definition chat_request : CompletionRequest :=
  mkCompletionRequest (units "sk-sample") (units "gpt-4o-mini")
    [(system, ChatSystemPrompt chat_prompt);
     (user, Text (units "How am I doing?"))]
    1000 (7 # 10).

Definition summary_prompt : SummaryPrompt :=
  Eval vm_compute in
    SessionSummary.systemPrompt (H := exact) session1
      (data (select_trades_of_session store (units "s1"))).

Definition summary_request : CompletionRequest :=
  mkCompletionRequest (units "sk-sample") (units "gpt-4o-mini")
    [(system, SummarySystemPrompt summary_prompt)]
    800 (7 # 10).

(** The widget with and without a session-switch callback. *)
Definition with_callback : ChatInterface.ChatInterfaceProps :=
  ChatInterface.mkProps None (Some (fun _ => ChatInterface.Returns tt)).

Definition without_callback : ChatInterface.ChatInterfaceProps :=
  ChatInterface.mkProps None None.

(** A callback that throws, as one that looks a session up and does not
    find it may. *)
Definition with_throwing_callback : ChatInterface.ChatInterfaceProps :=
  ChatInterface.mkProps None (Some (fun _ => ChatInterface.Throws)).

Definition signed_in : ChatInterface.Env :=
  ChatInterface.mkEnv (Some (ChatInterface.mkUser (units "u1")))
                      (fun _ _ _ => ChatInterface.Returns (units "Well done."))
                      1000 2000.

(** The widget at rest with [text] typed into its input. *)
Definition typed (text : string) : ChatInterface.State :=
  ChatInterface.mkState [] (units text) false.

(** A store that fails on the sessions, a backend that is down, and a
    backend that answers without a choice. *)
Definition broken_world : World :=
  mkWorld (Some (units "sk-sample"))
          (mkDatabase [session1] [] (Some (units "connection refused")) None)
          (fun _ => Ok reply) 20000.



Definition silent : HttpResponse :=
  mkHttpResponse 200 [] (Ok (mkAiData [] None)).

Definition silent_world : World :=
  mkWorld (Some (units "sk-sample")) store (fun _ => Ok silent) 20000.

(** A backend whose 2xx body is the empty object. *)
Definition choiceless : HttpResponse :=
  mkHttpResponse 200 [] (Ok (JsonObject NoChoices None)).

Definition choiceless_world : World :=
  mkWorld (Some (units "sk-sample")) store (fun _ => Ok choiceless) 20000.

(** User [u2] asking for the summary of a session of user [u1]. *)
Definition foreign_summary : Request SessionSummary.SummaryRequest :=
  post (SessionSummary.mkSummaryRequest (units "s1") (units "u2")).

End Sample.

(** * Properties *)

(** ** The matcher against the meaning of an expression *)

Section MatcherFacts.
Import JS RegExp.
Variable R : Type.

Implicit Types (s m p : jsstring) (k : jsstring -> option R).

Lemma match_str_sound p s s' :
  match_str p s = Some s' ->
  exists m, s = m ++ s' /\ Forall2 (fun c a => eq_ignore_case c a = true) m p.
Proof.
  revert s; induction p as [|a p IH]; intros s Hm; simpl in Hm.
  - injection Hm as ->. exists []. split; [reflexivity | constructor].
  - destruct s as [|c s]; [discriminate|].
    destruct (eq_ignore_case c a) eqn:Hc; [|discriminate].
    destruct (IH _ Hm) as (m & -> & Hf).
    exists (c :: m). split; [reflexivity | constructor; assumption].
Qed.

Lemma match_str_complete p m s' :
  Forall2 (fun c a => eq_ignore_case c a = true) m p ->
  match_str p (m ++ s') = Some s'.
Proof.
  induction 1 as [|c a m p Hc _ IH]; simpl.
  - reflexivity.
  - rewrite Hc. exact IH.
Qed.

Lemma star_greedy_sound cls s k x :
  star_greedy cls s k = Some x ->
  exists m s', s = m ++ s' /\ Forall (fun c => cls c = true) m /\ k s' = Some x.
Proof.
  induction s as [|c s IH]; simpl; intros Hx.
  - exists [], []. auto.
  - destruct (cls c) eqn:Hc.
    + destruct (star_greedy cls s k) as [r|] eqn:Hs.
      * injection Hx as <-.
        destruct (IH eq_refl) as (m & s' & -> & Hf & Hk).
        exists (c :: m), s'. auto.
      * exists [], (c :: s). auto.
    + exists [], (c :: s). auto.
Qed.

Lemma star_lazy_sound cls s k x :
  star_lazy cls s k = Some x ->
  exists m s', s = m ++ s' /\ Forall (fun c => cls c = true) m /\ k s' = Some x.
Proof.
  induction s as [|c s IH]; simpl; intros Hx.
  - destruct (k []) eqn:Hk; [|discriminate]. injection Hx as <-.
    exists [], []. auto.
  - destruct (k (c :: s)) eqn:Hk.
    + injection Hx as <-. exists [], (c :: s). auto.
    + destruct (cls c) eqn:Hc; [|discriminate].
      destruct (IH Hx) as (m & s' & -> & Hf & Hk').
      exists (c :: m), s'. auto.
Qed.

Lemma star_greedy_complete cls m s' k :
  Forall (fun c => cls c = true) m -> k s' <> None ->
  star_greedy cls (m ++ s') k <> None.
Proof.
  intros Hf Hk. induction Hf as [|c m Hc _ IH]; simpl.
  - destruct s' as [|c s']; simpl; [exact Hk|].
    destruct (cls c); [|exact Hk].
    destruct (star_greedy cls s' k); [discriminate | exact Hk].
  - rewrite Hc. destruct (star_greedy cls (m ++ s') k); [discriminate|].
    contradiction.
Qed.

Lemma star_lazy_complete cls m s' k :
  Forall (fun c => cls c = true) m -> k s' <> None ->
  star_lazy cls (m ++ s') k <> None.
Proof.
  intros Hf Hk. induction Hf as [|c m Hc _ IH]; simpl.
  - destruct s' as [|c s']; simpl; destruct (k _); congruence.
  - destruct (k (c :: m ++ s')); [discriminate|]. rewrite Hc. exact IH.
Qed.

Lemma plus_with_sound star cls s k x :
  (forall s0 x0, star cls s0 k = Some x0 ->
     exists m s', s0 = m ++ s' /\ Forall (fun c => cls c = true) m /\
                  k s' = Some x0) ->
  plus_with star cls s k = Some x ->
  exists m s', s = m ++ s' /\ m <> [] /\ Forall (fun c => cls c = true) m /\
               k s' = Some x.
Proof.
  intros Hstar Hx. destruct s as [|c s]; simpl in Hx; [discriminate|].
  destruct (cls c) eqn:Hc; [|discriminate].
  destruct (Hstar _ _ Hx) as (m & s' & -> & Hf & Hk).
  exists (c :: m), s'. repeat split; auto. discriminate.
Qed.

Lemma plus_with_complete star cls m s' k :
  (forall m0, Forall (fun c => cls c = true) m0 -> star cls (m0 ++ s') k <> None) ->
  m <> [] -> Forall (fun c => cls c = true) m ->
  plus_with star cls (m ++ s') k <> None.
Proof.
  intros Hstar Hne Hf. destruct Hf as [|c m Hc Hf]; [congruence|].
  simpl. rewrite Hc. apply Hstar, Hf.
Qed.

(** Soundness: a success of the matcher is a match of the expression,
    followed by a success of the continuation. *)
Lemma run_sound r : forall s cap (k : cont R) x,
  run r s cap k = Some x ->
  exists m s' cap',
    s = m ++ s' /\ matches r m s' /\ k s' cap' = Some x /\
    (binds r = true \/ cap <> None -> cap' <> None).
Proof.
  induction r as [p|r1 IH1 r2 IH2|r1 IH1 r2 IH2|r1 IH1|cls|cls|r1 IH1|];
    intros s cap k x Hx; simpl in Hx.
  - destruct (match_str p s) as [s'|] eqn:Hm; [|discriminate].
    destruct (match_str_sound _ _ Hm) as (m & -> & Hf).
    exists m, s', cap. repeat split; auto using M_Str.
    intros [H|H]; [discriminate | exact H].
  - destruct (IH1 _ _ _ _ Hx) as (m1 & s1 & c1 & -> & Hm1 & Hk1 & Hc1).
    destruct (IH2 _ _ _ _ Hk1) as (m2 & s2 & c2 & -> & Hm2 & Hk2 & Hc2).
    exists (m1 ++ m2), s2, c2. rewrite <- app_assoc.
    repeat split; auto using M_Seq.
    simpl. intros [H|H].
    + apply orb_true_iff in H. destruct H as [H|H]; auto.
    + auto.
  - destruct (run r1 s cap k) as [y|] eqn:H1.
    + injection Hx as <-.
      destruct (IH1 _ _ _ _ H1) as (m & s' & c' & -> & Hm & Hk & Hc).
      exists m, s', c'. repeat split; auto using M_AltL.
      simpl. intros [H|H]; auto.
      apply andb_true_iff in H. destruct H; auto.
    + destruct (IH2 _ _ _ _ Hx) as (m & s' & c' & -> & Hm & Hk & Hc).
      exists m, s', c'. repeat split; auto using M_AltR.
      simpl. intros [H|H]; auto.
      apply andb_true_iff in H. destruct H; auto.
  - destruct (run r1 s cap k) as [y|] eqn:H1.
    + injection Hx as <-.
      destruct (IH1 _ _ _ _ H1) as (m & s' & c' & -> & Hm & Hk & Hc).
      exists m, s', c'. repeat split; auto using M_OptSome.
      simpl. intros [H|H]; [discriminate | auto].
    + exists [], s, cap. repeat split; auto using M_OptNone.
      simpl. intros [H|H]; [discriminate | auto].
  - apply plus_with_sound in Hx; [|intros; eapply star_greedy_sound; eassumption].
    destruct Hx as (m & s' & -> & Hne & Hf & Hk).
    exists m, s', cap. repeat split; auto using M_Plus.
    simpl. intros [H|H]; [discriminate | auto].
  - apply plus_with_sound in Hx; [|intros; eapply star_lazy_sound; eassumption].
    destruct Hx as (m & s' & -> & Hne & Hf & Hk).
    exists m, s', cap. repeat split; auto using M_PlusLazy.
    simpl. intros [H|H]; [discriminate | auto].
  - destruct (IH1 _ _ _ _ Hx) as (m & s' & c' & -> & Hm & Hk & Hc).
    eexists m, s', _. repeat split; eauto using M_Group.
    discriminate.
  - destruct s; [|discriminate].
    exists [], [], cap. repeat split; auto using M_Eol.
    simpl. intros [H|H]; [discriminate | auto].
Qed.

(** Completeness: where the expression matches and the continuation
    accepts what is left, the matcher succeeds. *)
Lemma run_complete r m s' :
  matches r m s' ->
  forall cap (k : cont R),
    (forall cap', k s' cap' <> None) -> run r (m ++ s') cap k <> None.
Proof.
  induction 1 as [p m rest Hf|r1 r2 m1 m2 rest _ IH1 _ IH2
                 |r1 r2 m rest _ IH|r1 r2 m rest _ IH
                 |r m rest _ IH|r rest|cls m rest Hne Hf|cls m rest Hne Hf
                 |r m rest _ IH|];
    intros cap k Hk; simpl.
  - rewrite (match_str_complete _ Hf). apply Hk.
  - rewrite <- app_assoc. apply IH1. intros cap'. apply IH2, Hk.
  - specialize (IH cap k Hk). destruct (run r1 (m ++ rest) cap k); congruence.
  - destruct (run r1 (m ++ rest) cap k); [discriminate|]. apply IH, Hk.
  - specialize (IH cap k Hk). destruct (run r (m ++ rest) cap k); congruence.
  - destruct (run r rest cap k); [discriminate|]. apply Hk.
  - apply plus_with_complete; auto.
    intros m0 Hm0. apply star_greedy_complete; auto.
  - apply plus_with_complete; auto.
    intros m0 Hm0. apply star_lazy_complete; auto.
  - apply IH. intros _. apply Hk.
  - apply Hk.
Qed.

End MatcherFacts.

Section ExecFacts.
Import JS RegExp.

Lemma exec_complete r pre m rest :
  matches r m rest -> exec r (pre ++ m ++ rest) <> None.
Proof.
  intros Hm. induction pre as [|c pre IH]; simpl.
  - assert (H := @run_complete _ r m rest Hm None (fun _ cap => Some cap)).
    destruct (m ++ rest); simpl;
      destruct (run r _ None _); try discriminate;
      exfalso; apply H; auto; discriminate.
  - destruct (run r _ None _); [discriminate | exact IH].
Qed.

Lemma exec_sound r s cap :
  exec r s = Some cap ->
  exists pre m rest,
    s = pre ++ m ++ rest /\ matches r m rest /\
    (binds r = true -> cap <> None).
Proof.
  induction s as [|c s IH]; simpl; intros Hx.
  - destruct (run r [] None _) as [y|] eqn:Hr; [|discriminate].
    injection Hx as <-.
    destruct (run_sound _ _ _ _ Hr) as (m & s' & c' & E & Hm & Hk & Hc).
    injection Hk as <-.
    exists [], m, s'. repeat split; auto.
  - destruct (run r (c :: s) None _) as [y|] eqn:Hr.
    + injection Hx as <-.
      destruct (run_sound _ _ _ _ Hr) as (m & s' & c' & E & Hm & Hk & Hc).
      injection Hk as <-.
      exists [], m, s'. repeat split; auto.
    + destruct (IH Hx) as (pre & m & rest & -> & Hm & Hc).
      exists (c :: pre), m, rest. repeat split; auto.
Qed.

End ExecFacts.

(** ** Reading a match back *)

Section MatchesInversion.
Import JS RegExp.

Lemma matches_Str_inv p m rest :
  matches (Str p) m rest -> same_letters m p.
Proof. inversion 1; assumption. Qed.

Lemma matches_Seq_inv r1 r2 m rest :
  matches (Seq r1 r2) m rest ->
  exists m1 m2,
    m = m1 ++ m2 /\ matches r1 m1 (m2 ++ rest) /\ matches r2 m2 rest.
Proof. inversion 1; subst; eauto. Qed.

Lemma matches_Alt_inv r1 r2 m rest :
  matches (Alt r1 r2) m rest -> matches r1 m rest \/ matches r2 m rest.
Proof. inversion 1; auto. Qed.

Lemma matches_Opt_inv r m rest :
  matches (Opt r) m rest -> m = [] \/ matches r m rest.
Proof. inversion 1; auto. Qed.

Lemma matches_Plus_inv cls m rest :
  matches (Plus cls) m rest -> m <> [] /\ Forall (fun c => cls c = true) m.
Proof. inversion 1; auto. Qed.

Lemma matches_PlusLazy_inv cls m rest :
  matches (PlusLazy cls) m rest ->
  m <> [] /\ Forall (fun c => cls c = true) m.
Proof. inversion 1; auto. Qed.

Lemma matches_Group_inv r m rest :
  matches (Group r) m rest -> matches r m rest.
Proof. inversion 1; assumption. Qed.

Lemma matches_Eol_inv m rest : matches Eol m rest -> m = [] /\ rest = [].
Proof. inversion 1; auto. Qed.

End MatchesInversion.

(** ** The backtracking order on the shapes the pattern uses *)

Section FirstSuccess.
Import JS RegExp ChatInterface.

Lemma exec_first r s cap :
  run r s None accept = Some cap -> exec r s = Some cap.
Proof. intros H. destruct s; simpl; rewrite H; reflexivity. Qed.

Lemma star_lazy_exact (R : Type) cls m s' (k : jsstring -> option R) x :
  Forall (fun c => cls c = true) m ->
  (forall m1 m2, m = m1 ++ m2 -> m2 <> [] -> k (m2 ++ s') = None) ->
  k s' = Some x ->
  star_lazy cls (m ++ s') k = Some x.
Proof.
  intros Hf. induction Hf as [|c m Hc _ IH]; intros Hnone Hk.
  - destruct s'; simpl; rewrite Hk; reflexivity.
  - assert (H0 := Hnone [] (c :: m) eq_refl ltac:(discriminate)).
    simpl in *. rewrite H0, Hc. apply IH; auto.
    intros m1 m2 -> Hne. apply (Hnone (c :: m1) m2); auto.
Qed.

Lemma app_inj_length (A : Type) (a c b d : list A) :
  length b = length d -> a ++ b = c ++ d -> a = c /\ b = d.
Proof.
  intros Hl. revert c. induction a as [|x a IH]; intros [|y c] E; simpl in E.
  - auto.
  - subst b. rewrite length_cons, length_app in Hl. lia.
  - subst d. rewrite length_cons, length_app in Hl. lia.
  - injection E as -> E. destruct (IH _ E) as [-> ->]. auto.
Qed.

Lemma tail_accepts cap : run tailPattern (units " session") cap accept = Some cap.
Proof. reflexivity. Qed.

Lemma tail_rejects r0 z cap :
  is_space z = false ->
  run tailPattern ((r0 ++ [z]) ++ units " session") cap accept = None.
Proof.
  intros Hz.
  destruct (run tailPattern _ cap accept) as [x|] eqn:Hr; [exfalso | reflexivity].
  destruct (run_sound _ _ _ _ Hr) as (m & s' & c' & E & Hm & _).
  apply matches_Seq_inv in Hm. destruct Hm as (m1 & m2 & -> & H1 & H2).
  apply matches_Eol_inv in H2. destruct H2 as [-> ->].
  rewrite !app_nil_r in *.
  apply matches_Opt_inv in H1. destruct H1 as [-> | H1].
  - destruct r0; discriminate.
  - apply matches_Seq_inv in H1. destruct H1 as (w & v & -> & Hw & Hv).
    apply matches_Plus_inv in Hw. destruct Hw as [_ Hf].
    apply matches_Str_inv, Forall2_length in Hv.
    change (units " session") with ([32] ++ units "session") in E.
    rewrite app_assoc in E.
    apply app_inj_length in E; [|symmetry; exact Hv].
    destruct E as [<- _].
    apply Forall_app in Hf. destruct Hf as [Hf _].
    apply Forall_app in Hf. destruct Hf as [_ Hf].
    inversion Hf; congruence.
Qed.

Lemma firstn_app_exact (A : Type) (a b : list A) :
  firstn (length (a ++ b) - length b) (a ++ b) = a.
Proof.
  rewrite length_app. replace (length a + length b - length b)%nat with (length a) by lia.
  rewrite firstn_app, Nat.sub_diag, firstn_all. simpl. apply app_nil_r.
Qed.

Lemma suffix_last (A : Type) (n0 : list A) z m1 m2 :
  n0 ++ [z] = m1 ++ m2 -> m2 <> [] -> exists r0, m2 = r0 ++ [z].
Proof.
  intros E Hne. destruct (exists_last Hne) as (r0 & y & ->).
  rewrite app_assoc in E. apply app_inj_tail in E. destruct E as [_ ->].
  eauto.
Qed.

Lemma name_then_tail name n0 z cap :
  name = n0 ++ [z] -> is_space z = false ->
  Forall (fun c => dot c = true) name ->
  run (Seq (Group (PlusLazy dot)) tailPattern)
      (name ++ units " session") cap accept = Some (Some name).
Proof.
  intros En Hz Hdot. cbn [run].
  destruct name as [|c n']; [destruct n0; discriminate|].
  inversion Hdot as [|? ? Hc Hn']; subst.
  cbn [plus_with app]. rewrite Hc.
  apply star_lazy_exact; auto.
  - intros m1 m2 E Hne.
    assert (exists r0, m2 = r0 ++ [z]) as (r0 & ->).
    { apply (@suffix_last _ n0 z (c :: m1) m2); auto. rewrite <- En, E. reflexivity. }
    apply tail_rejects, Hz.
  - change (c :: n' ++ units " session") with ((c :: n') ++ units " session").
    rewrite firstn_app_exact. apply tail_accepts.
Qed.

Lemma run_Seq_eq (R : Type) r1 r2 s cap (k : cont R) :
  run (Seq r1 r2) s cap k = run r1 s cap (fun s' cap' => run r2 s' cap' k).
Proof. reflexivity. Qed.

Lemma run_Alt_first (R : Type) r1 r2 s cap (k : cont R) x :
  run r1 s cap k = Some x -> run (Alt r1 r2) s cap k = Some x.
Proof. intros H. simpl. rewrite H. reflexivity. Qed.

Lemma run_Opt_first (R : Type) r s cap (k : cont R) x :
  run r s cap k = Some x -> run (Opt r) s cap k = Some x.
Proof. intros H. simpl. rewrite H. reflexivity. Qed.

Lemma run_Str (R : Type) p m s' cap (k : cont R) :
  Forall2 (fun c a => eq_ignore_case c a = true) m p ->
  run (Str p) (m ++ s') cap k = k s' cap.
Proof. intros H. simpl. rewrite (match_str_complete _ H). reflexivity. Qed.

Lemma star_greedy_all (R : Type) cls w s' (k : jsstring -> option R) x :
  Forall (fun c => cls c = true) w -> stops cls s' -> k s' = Some x ->
  star_greedy cls (w ++ s') k = Some x.
Proof.
  intros Hf Hs Hk. induction Hf as [|c w Hc _ IH]; simpl.
  - destruct s' as [|c s']; simpl in *; [exact Hk|]. rewrite Hs. exact Hk.
  - rewrite Hc, IH. reflexivity.
Qed.

Lemma run_Plus_all (R : Type) cls w s' cap (k : cont R) x :
  w <> [] -> Forall (fun c => cls c = true) w -> stops cls s' ->
  k s' cap = Some x ->
  run (Plus cls) (w ++ s') cap k = Some x.
Proof.
  intros Hne Hf Hs Hk. destruct Hf as [|c w Hc Hf]; [congruence|].
  simpl. rewrite Hc. apply star_greedy_all; auto.
Qed.

Lemma trimStart_length s : (length (trimStart s) <= length s)%nat.
Proof.
  induction s as [|c s IH]; simpl; [lia|].
  destruct (is_space c); simpl; lia.
Qed.

Lemma trimStart_fixed c s :
  length (trimStart (c :: s)) = length (c :: s) -> is_space c = false.
Proof.
  simpl. destruct (is_space c); [|reflexivity].
  intros H. pose proof (trimStart_length s). lia.
Qed.

Lemma trimStart_outside c s : is_space c = false -> trimStart (c :: s) = c :: s.
Proof. intros H. simpl. rewrite H. reflexivity. Qed.

Lemma trim_fixed name :
  name <> [] -> trim name = name ->
  (exists c n', name = c :: n' /\ is_space c = false) /\
  (exists n0 z, name = n0 ++ [z] /\ is_space z = false).
Proof.
  intros Hne Ht.
  assert (Hl : length (trim name) = length name) by (rewrite Ht; reflexivity).
  unfold trim, trimEnd in Hl. rewrite length_rev in Hl.
  pose proof (trimStart_length (rev (trimStart name))) as H1.
  pose proof (trimStart_length name) as H2.
  rewrite length_rev in H1.
  destruct name as [|c n']; [congruence|].
  assert (Hc : is_space c = false) by (apply (@trimStart_fixed c n'); lia).
  split; [eauto|].
  rewrite (@trimStart_outside c n' Hc) in Hl.
  destruct (rev (c :: n')) as [|z r] eqn:Hr.
  - apply (f_equal (@length _)) in Hr. rewrite length_rev in Hr. discriminate.
  - exists (rev r), z. split.
    + rewrite <- (rev_involutive (c :: n')), Hr. reflexivity.
    + apply (@trimStart_fixed z r). rewrite Hl, <- Hr, length_rev. reflexivity.
Qed.

Lemma other_letter c a b :
  eq_ignore_case c a = true -> eq_ignore_case a b = false ->
  eq_ignore_case c b = false.
Proof.
  unfold eq_ignore_case. intros Hca Hab.
  apply N.eqb_eq in Hca. rewrite Hca. exact Hab.
Qed.

Lemma run_Str_other (R : Type) a q b p c v rest cap (k : cont R) :
  same_letters (c :: v) (b :: p) -> eq_ignore_case b a = false ->
  run (Str (a :: q)) ((c :: v) ++ rest) cap k = None.
Proof.
  intros Hv Hab. inversion Hv as [|? ? ? ? Hc _]; subst.
  simpl. rewrite (@other_letter c b a Hc Hab). reflexivity.
Qed.

(** The verbs are tried in the order of the source; the first that fits
    the input is the one that is taken. *)
Lemma run_verb (R : Type) v p rest (k : cont R) x :
  In p verbs -> same_letters v p -> k rest None = Some x ->
  run verbPattern (v ++ rest) None k = Some x.
Proof.
  unfold verbs, verbPattern.
  intros [<-|[<-|[<-|[]]]] Hv Hk.
  - apply run_Alt_first. rewrite run_Str by exact Hv. exact Hk.
  - destruct v as [|c v]; [inversion Hv|].
    cbn [run]. fold (run (R := R)).
    change (match_str (units "load") ((c :: v) ++ rest))
      with (match_str (108 :: units "oad") ((c :: v) ++ rest)).
    pose proof (@run_Str_other R 108 (units "oad") _ _ c v rest None k Hv eq_refl)
      as Hload.
    cbn [run] in Hload. rewrite Hload.
    rewrite (match_str_complete _ Hv), Hk. reflexivity.
  - destruct v as [|c v]; [inversion Hv|].
    cbn [run]. fold (run (R := R)).
    pose proof (@run_Str_other R 108 (units "oad") _ _ c v rest None k Hv eq_refl)
      as Hload.
    pose proof (@run_Str_other R 115 (units "witch to") _ _ c v rest None k Hv eq_refl)
      as Hswitch.
    cbn [run] in Hload, Hswitch.
    change (match_str (units "load") ((c :: v) ++ rest))
      with (match_str (108 :: units "oad") ((c :: v) ++ rest)).
    change (match_str (units "switch to") ((c :: v) ++ rest))
      with (match_str (115 :: units "witch to") ((c :: v) ++ rest)).
    rewrite Hload, Hswitch.
    rewrite (match_str_complete _ Hv). exact Hk.
Qed.

(** "<verb> the <name> session": the name comes out as it was typed. *)
Lemma verb_the_name_session v p name :
  In p verbs -> same_letters v p ->
  name <> [] -> trim name = name ->
  Forall (fun c => is_line_terminator c = false) name ->
  sessionSwitchMatch (v ++ units " the " ++ name ++ units " session")
  = Some (Some name).
Proof.
  intros Hp Hv Hne Ht Hlt.
  destruct (trim_fixed Hne Ht) as ((c & n' & En & Hc) & (n0 & z & En0 & Hz)).
  apply exec_first. unfold switchPattern.
  rewrite run_Seq_eq. apply (@run_verb _ v p _ _ _ Hp Hv).
  change (units " the " ++ name ++ units " session")
    with ([32] ++ units "the" ++ [32] ++ name ++ units " session").
  rewrite run_Seq_eq. apply run_Plus_all;
    [discriminate | repeat constructor | reflexivity |].
  rewrite run_Seq_eq. apply run_Opt_first.
  rewrite run_Seq_eq, run_Str by (repeat constructor).
  apply run_Plus_all; [discriminate | repeat constructor | |].
  { subst name. exact Hc. }
  apply (@name_then_tail name n0 z None); auto.
  apply Forall_impl with (2 := Hlt). intros a Ha. unfold dot. rewrite Ha. reflexivity.
Qed.
End FirstSuccess.

(** ** Intent detection *)

Section IntentFacts.
Import JS RegExp ChatInterface.

Lemma switchPattern_binds : binds switchPattern = true.
Proof. reflexivity. Qed.

(** A match of the pattern always carries capture group 1. *)
Lemma sessionSwitchMatch_group s cap :
  sessionSwitchMatch s = Some cap -> exists group1, cap = Some group1.
Proof.
  intros H. apply exec_sound in H.
  destruct H as (_ & _ & _ & _ & _ & Hb).
  specialize (Hb switchPattern_binds).
  destruct cap as [g|]; [eauto | congruence].
Qed.

Lemma verbPattern_matches v p rest :
  In p verbs -> same_letters v p -> matches verbPattern v rest.
Proof.
  unfold verbs, verbPattern. simpl.
  intros [<-|[<-|[<-|[]]]] Hv.
  - apply M_AltL, M_Str, Hv.
  - apply M_AltR, M_AltL, M_Str, Hv.
  - apply M_AltR, M_AltR, M_Str, Hv.
Qed.

Lemma verbPattern_inv v rest :
  matches verbPattern v rest -> exists p, In p verbs /\ same_letters v p.
Proof.
  unfold verbPattern, verbs. intros H.
  apply matches_Alt_inv in H. destruct H as [H|H].
  - apply matches_Str_inv in H. eexists. split; [left; reflexivity | exact H].
  - apply matches_Alt_inv in H. destruct H as [H|H];
      apply matches_Str_inv in H; eexists; (split; [|exact H]); simpl; auto.
Qed.

(** The least the pattern asks for: a verb, one white-space character,
    and a remainder on one line. *)
Lemma switchPattern_matches v p sp tail :
  In p verbs -> same_letters v p -> is_space sp = true -> tail <> [] ->
  Forall (fun c => is_line_terminator c = false) tail ->
  matches switchPattern (v ++ sp :: tail) [].
Proof.
  intros Hp Hv Hsp Hne Hlt. unfold switchPattern.
  replace (v ++ sp :: tail) with (v ++ [sp] ++ [] ++ tail ++ [] ++ [])
    by (simpl; rewrite app_nil_r; reflexivity).
  apply M_Seq; [eapply verbPattern_matches; eassumption|].
  apply M_Seq; [apply M_Plus; [discriminate | repeat constructor; exact Hsp]|].
  apply M_Seq; [apply M_OptNone|].
  apply M_Seq.
  - apply M_Group, M_PlusLazy; [exact Hne|].
    apply Forall_impl with (2 := Hlt). intros c Hc. unfold dot. rewrite Hc. reflexivity.
  - unfold tailPattern. apply M_Seq; [apply M_OptNone | apply M_Eol].
Qed.

Lemma switchPattern_inv m rest :
  matches switchPattern m rest ->
  exists v p sp tail,
    m ++ rest = v ++ sp :: tail /\ In p verbs /\ same_letters v p /\
    is_space sp = true /\ tail <> [].
Proof.
  unfold switchPattern. intros H.
  apply matches_Seq_inv in H. destruct H as (v & m1 & -> & Hv & H).
  apply verbPattern_inv in Hv. destruct Hv as (p & Hp & Hv).
  apply matches_Seq_inv in H. destruct H as (w & m2 & -> & Hw & H).
  apply matches_Plus_inv in Hw. destruct Hw as [Hne Hw].
  apply matches_Seq_inv in H. destruct H as (t & m3 & -> & _ & H).
  apply matches_Seq_inv in H. destruct H as (g & m4 & -> & Hg & _).
  apply matches_Group_inv, matches_PlusLazy_inv in Hg. destruct Hg as [Hg _].
  destruct w as [|sp w]; [congruence|].
  exists v, p, sp, (w ++ t ++ g ++ m4 ++ rest).
  inversion Hw; subst.
  repeat split; auto.
  - rewrite <- !app_assoc. reflexivity.
  - destruct g; [congruence|]. intros E.
    apply app_eq_nil in E. destruct E as [_ E].
    apply app_eq_nil in E. destruct E as [_ E]. discriminate.
Qed.

(** The pattern at work. *)
Example switch_to_gold :
  sessionSwitchMatch (units "switch to gold session") = Some (Some (units "gold")).
Proof. vm_compute. reflexivity. Qed.

Example open_the_session :
  sessionSwitchMatch (units "OPEN the session") = Some (Some (units "session")).
Proof. vm_compute. reflexivity. Qed.

Example verb_inside_a_word :
  sessionSwitchMatch (units "download the file") = Some (Some (units "file")).
Proof. vm_compute. reflexivity. Qed.

Example verb_without_a_name : sessionSwitchMatch (units "open") = None.
Proof. vm_compute. reflexivity. Qed.

Example no_verb :
  sessionSwitchMatch (units "Summarize my trades this week") = None.
Proof. vm_compute. reflexivity. Qed.

Lemma classify_switch props s name :
  classify props s = SessionSwitch name <->
  exists group1 callback,
    sessionSwitchMatch s = Some (Some group1) /\
    onSessionSwitch props = Some callback /\ name = trim group1.
Proof.
  unfold classify. split.
  - destruct (sessionSwitchMatch s) as [[g|]|]; try discriminate.
    destruct (onSessionSwitch props) as [cb|]; [|discriminate].
    intros [= <-]. eauto.
  - intros (g & cb & -> & -> & ->). reflexivity.
Qed.

End IntentFacts.

(** ** The claims on intent detection *)

Section IntentClaims.
Import JS RegExp ChatInterface.

(** C1, as stated, fails: with a session-switch callback supplied, the
    message "Can you load my recent trades" is not classified as a
    general query. *)
Lemma load_mid_sentence_not_general :
  classify Sample.with_callback (units "Can you load my recent trades")
  <> GeneralQuery.
Proof. vm_compute. discriminate. Qed.

(** C1, amended: the pattern is anchored at the end of the message only.
    With a callback supplied, "Can you load my recent trades" is a session
    switch to "my recent trades"; so is every message in which a verb, in
    any letter case and at any position, is followed by a white-space
    character and a non-empty remainder without line terminator; and a
    message is a session switch only if a verb in it is followed by white
    space and at least one more character. *)
Theorem verb_anywhere_is_a_switch (props : ChatInterfaceProps) :
  onSessionSwitch props <> None ->
  classify props (units "Can you load my recent trades")
  = SessionSwitch (units "my recent trades") /\
  (forall pre v p sp tail,
     In p verbs -> same_letters v p -> is_space sp = true -> tail <> [] ->
     Forall (fun c => is_line_terminator c = false) tail ->
     exists name, classify props (pre ++ v ++ sp :: tail) = SessionSwitch name) /\
  (forall s name,
     classify props s = SessionSwitch name ->
     exists pre v p sp tail,
       s = pre ++ v ++ sp :: tail /\ In p verbs /\ same_letters v p /\
       is_space sp = true /\ tail <> []).
Proof.
  intros Hcb. destruct (onSessionSwitch props) as [cb|] eqn:Ecb; [|congruence].
  split; [|split].
  - apply classify_switch. exists (units "my recent trades"), cb.
    repeat split; auto; vm_compute; reflexivity.
  - intros pre v p sp tail Hp Hv Hsp Hne Hlt.
    pose proof (@switchPattern_matches v p sp tail Hp Hv Hsp Hne Hlt) as Hm.
    pose proof (@exec_complete switchPattern pre _ _ Hm) as Hex.
    rewrite app_nil_r in Hex.
    destruct (sessionSwitchMatch (pre ++ v ++ sp :: tail)) as [cap|] eqn:E;
      [|exact (False_ind _ (Hex E))].
    destruct (@sessionSwitchMatch_group _ _ E) as (g & ->).
    exists (trim g). apply classify_switch. eauto.
  - intros s name H. apply classify_switch in H.
    destruct H as (g & _ & E & _ & _).
    apply exec_sound in E. destruct E as (pre & m & rest & -> & Hm & _).
    apply switchPattern_inv in Hm.
    destruct Hm as (v & p & sp & tail & E & Hp & Hv & Hsp & Hne).
    exists pre, v, p, sp, tail. rewrite <- E. auto.
Qed.

Lemma verb_anywhere_is_a_switch_witness :
  exists name,
    classify Sample.with_callback
             (units "Can you " ++ units "load" ++ 32 :: units "my recent trades")
    = SessionSwitch name.
Proof.
  refine (proj1 (proj2 (@verb_anywhere_is_a_switch Sample.with_callback _))
                (units "Can you ") (units "load") (units "load") 32
                (units "my recent trades") _ _ _ _ _).
  - discriminate.
  - left. reflexivity.
  - repeat constructor.
  - reflexivity.
  - discriminate.
  - repeat constructor.
Defined.

(** C6: "Load the BTC 5 Minute session" is a session switch to
    "BTC 5 Minute"; more generally "<verb> the <name> session", with any
    of the verbs in any letter case, yields <name> unchanged, letter case
    and punctuation included, for every non-empty name on one line that
    has no white space around it. *)
Theorem load_the_name_session_extracts (props : ChatInterfaceProps) :
  onSessionSwitch props <> None ->
  classify props (units "Load the BTC 5 Minute session")
  = SessionSwitch (units "BTC 5 Minute") /\
  (forall v p name,
     In p verbs -> same_letters v p ->
     name <> [] -> trim name = name ->
     Forall (fun c => is_line_terminator c = false) name ->
     classify props (v ++ units " the " ++ name ++ units " session")
     = SessionSwitch name).
Proof.
  intros Hcb. destruct (onSessionSwitch props) as [cb|] eqn:Ecb; [|congruence].
  assert (General : forall v p name,
     In p verbs -> same_letters v p ->
     name <> [] -> trim name = name ->
     Forall (fun c => is_line_terminator c = false) name ->
     classify props (v ++ units " the " ++ name ++ units " session")
     = SessionSwitch name).
  { intros v p name Hp Hv Hne Ht Hlt. apply classify_switch. exists name, cb.
    repeat split; eauto using verb_the_name_session. }
  split; [|exact General].
  apply (General (units "Load") (units "load") (units "BTC 5 Minute")).
  - left. reflexivity.
  - repeat constructor.
  - discriminate.
  - reflexivity.
  - repeat constructor.
Qed.

Lemma load_the_name_session_extracts_witness :
  classify Sample.with_callback (units "SWITCH TO the Gold: NY open! session")
  = SessionSwitch (units "Gold: NY open!").
Proof.
  refine (proj2 (@load_the_name_session_extracts Sample.with_callback _)
                (units "SWITCH TO") (units "switch to")
                (units "Gold: NY open!") _ _ _ _ _).
  - discriminate.
  - right. left. reflexivity.
  - repeat constructor.
  - discriminate.
  - reflexivity.
  - repeat constructor.
Defined.

End IntentClaims.

(** ** The claims on one turn of the widget *)

Section TurnClaims.
Import JS RegExp ChatInterface.

Variable props : ChatInterfaceProps.
Variable env : Env.
Variable st : State.
Variable u : User.

(** The guard of [handleSendMessage] lets the turn start. *)
Hypothesis signed_in : auth_user env = Some u.
Hypothesis idle : isLoading st = false.
Hypothesis typed : trim (inputMessage st) <> [].

Let currentInput : jsstring := trim (inputMessage st).

Let userMessage : ChatMessage :=
  mkChatMessage (toString (now_submit env)) user currentInput (now_submit env).

Let reply (content : jsstring) : ChatMessage :=
  mkChatMessage (toString (now_reply env + 1)) assistant content (now_reply env).

Lemma guard_passes :
  negb (truthy_string (trim (inputMessage st))) || isLoading st = false.
Proof.
  rewrite idle. destruct (trim (inputMessage st)); [congruence | reflexivity].
Qed.

(** A general query goes to the chat service: its answer is appended, its
    failure is shown as the fixed notice and adds nothing to the
    transcript. *)
Lemma general_turn :
  classify props currentInput = GeneralQuery ->
  handleSendMessage props env st
  = let call := CallSendChatMessage currentInput (user_id u)
                                    (currentSessionId props) in
    match sendChatMessage env currentInput (user_id u) (currentSessionId props)
    with
    | Returns aiResponse =>
        (mkState (messages st ++ [userMessage; reply aiResponse]) [] false,
         [call])
    | Throws =>
        (mkState (messages st ++ [userMessage]) [] false,
         [call; ToastError toastText; ConsoleError])
    end.
Proof.
  intros Hc. unfold classify in Hc.
  unfold handleSendMessage. rewrite signed_in, guard_passes.
  fold currentInput.
  assert (Hsend :
    match sendChatMessage env currentInput (user_id u) (currentSessionId props)
    with
    | Returns aiResponse =>
        (mkState (messages (mkState (messages st ++ [userMessage]) [] true)
                  ++ [reply aiResponse]) [] false,
         [CallSendChatMessage currentInput (user_id u) (currentSessionId props)])
    | Throws =>
        failed (mkState (messages st ++ [userMessage]) [] true)
               [CallSendChatMessage currentInput (user_id u)
                                    (currentSessionId props)]
    end
    = let call := CallSendChatMessage currentInput (user_id u)
                                      (currentSessionId props) in
      match sendChatMessage env currentInput (user_id u) (currentSessionId props)
      with
      | Returns aiResponse =>
          (mkState (messages st ++ [userMessage; reply aiResponse]) [] false,
           [call])
      | Throws =>
          (mkState (messages st ++ [userMessage]) [] false,
           [call; ToastError toastText; ConsoleError])
      end).
  { cbv zeta.
    destruct (sendChatMessage env currentInput (user_id u) (currentSessionId props)).
    - cbn [messages]. rewrite <- app_assoc. reflexivity.
    - reflexivity. }
  destruct (sessionSwitchMatch currentInput) as [cap|] eqn:Em.
  - destruct (@sessionSwitchMatch_group _ _ Em) as (g & ->).
    destruct (onSessionSwitch props); [discriminate | exact Hsend].
  - destruct (onSessionSwitch props); exact Hsend.
Qed.

(** C7, amended: on a detected session switch the callback is called
    once with the extracted name, it is the only call of the turn, and
    the chat service is not contacted.  When the callback returns, the
    transcript gains the user's message and an acknowledgement that
    embeds the name; when it throws, the transcript gains the user's
    message only and the error notice is raised. *)
Theorem switch_turn_short_circuits (name : jsstring) :
  classify props currentInput = SessionSwitch name ->
  exists callback,
    onSessionSwitch props = Some callback /\
    handleSendMessage props env st
    = match callback name with
      | Returns _ =>
          (mkState (messages st ++ [userMessage; reply (acknowledgement name)])
                   [] false,
           [CallOnSessionSwitch name])
      | Throws =>
          (mkState (messages st ++ [userMessage]) [] false,
           [CallOnSessionSwitch name; ToastError toastText; ConsoleError])
      end /\
    (exists before after, acknowledgement name = before ++ name ++ after) /\
    calls (snd (handleSendMessage props env st)) = [CallOnSessionSwitch name] /\
    (forall message userId sessionId,
       ~ In (CallSendChatMessage message userId sessionId)
            (snd (handleSendMessage props env st))).
Proof.
  intros Hc. apply classify_switch in Hc.
  destruct Hc as (g & cb & Em & Ecb & ->).
  exists cb. split; [exact Ecb|].
  assert (E : handleSendMessage props env st
              = match cb (trim g) with
                | Returns _ =>
                    (mkState (messages st
                              ++ [userMessage; reply (acknowledgement (trim g))])
                             [] false,
                     [CallOnSessionSwitch (trim g)])
                | Throws =>
                    (mkState (messages st ++ [userMessage]) [] false,
                     [CallOnSessionSwitch (trim g); ToastError toastText;
                      ConsoleError])
                end).
  { unfold handleSendMessage. rewrite signed_in, guard_passes.
    fold currentInput. rewrite Em, Ecb.
    destruct (cb (trim g)) as [[]|]; [|reflexivity].
    cbn [messages]. rewrite <- app_assoc. reflexivity. }
  split; [exact E|]. split.
  - unfold acknowledgement. do 2 eexists. rewrite app_assoc. reflexivity.
  - rewrite E. split.
    + destruct (cb (trim g)); reflexivity.
    + intros m i sid.
      destruct (cb (trim g)); cbn [snd]; intros Hin;
        repeat (destruct Hin as [Hin|Hin]; [discriminate Hin|]);
        contradiction.
Qed.

(** C10: without a session-switch callback no message is short-circuited,
    whether it matches the pattern or not: it is a general query, sent to
    the chat service, and the transcript gains the user's message and,
    when the service answers, the service's answer. *)
Theorem no_callback_forwards_to_chat :
  onSessionSwitch props = None ->
  classify props currentInput = GeneralQuery /\
  handleSendMessage props env st
  = let call := CallSendChatMessage currentInput (user_id u)
                                    (currentSessionId props) in
    match sendChatMessage env currentInput (user_id u) (currentSessionId props)
    with
    | Returns aiResponse =>
        (mkState (messages st ++ [userMessage; reply aiResponse]) [] false,
         [call])
    | Throws =>
        (mkState (messages st ++ [userMessage]) [] false,
         [call; ToastError toastText; ConsoleError])
    end.
Proof.
  intros Hno.
  assert (Hc : classify props currentInput = GeneralQuery).
  { unfold classify. rewrite Hno.
    destruct (sessionSwitchMatch currentInput) as [[g|]|]; reflexivity. }
  split; [exact Hc | exact (general_turn Hc)].
Qed.

End TurnClaims.

Section TurnWitnesses.
Import JS RegExp ChatInterface.

Lemma clearChat_empties st : messages (clearChat st) = [].
Proof. reflexivity. Qed.

(** C7, as stated, fails: with a callback that throws, "Load the BTC 5
    Minute session" is a detected switch to "BTC 5 Minute", yet the
    transcript ends with the user's message alone, without an
    acknowledgement, and the error notice is raised. *)
Lemma throwing_callback_leaves_no_acknowledgement :
  let turn :=
    handleSendMessage Sample.with_throwing_callback Sample.signed_in
                      (Sample.typed "Load the BTC 5 Minute session") in
  classify Sample.with_throwing_callback
           (units "Load the BTC 5 Minute session")
  = SessionSwitch (units "BTC 5 Minute") /\
  messages (fst turn)
  = [mkChatMessage (units "1000") user
                   (units "Load the BTC 5 Minute session") 1000] /\
  (forall m, In m (messages (fst turn)) -> msg_role m <> assistant) /\
  snd turn
  = [CallOnSessionSwitch (units "BTC 5 Minute"); ToastError toastText;
     ConsoleError].
Proof.
  cbv zeta. split; [vm_compute; reflexivity|].
  split; [vm_compute; reflexivity|].
  split; [|vm_compute; reflexivity].
  intros m Hin. vm_compute in Hin. destruct Hin as [<-|[]]. discriminate.
Qed.

Lemma switch_turn_short_circuits_witness :
  calls (snd (handleSendMessage
                Sample.with_callback Sample.signed_in
                (Sample.typed "  Load the BTC 5 Minute session ")))
  = [CallOnSessionSwitch (units "BTC 5 Minute")] /\
  calls (snd (handleSendMessage
                Sample.with_throwing_callback Sample.signed_in
                (Sample.typed "  Load the BTC 5 Minute session ")))
  = [CallOnSessionSwitch (units "BTC 5 Minute")].
Proof.
  assert (Htyped :
            trim (inputMessage (Sample.typed "  Load the BTC 5 Minute session "))
            <> []) by (vm_compute; discriminate).
  split.
  - destruct (@switch_turn_short_circuits
                Sample.with_callback Sample.signed_in
                (Sample.typed "  Load the BTC 5 Minute session ")
                (mkUser (units "u1")) eq_refl eq_refl Htyped
                (units "BTC 5 Minute"))
      as (callback & _ & _ & _ & Hcalls & _);
      [vm_compute; reflexivity | exact Hcalls].
  - destruct (@switch_turn_short_circuits
                Sample.with_throwing_callback Sample.signed_in
                (Sample.typed "  Load the BTC 5 Minute session ")
                (mkUser (units "u1")) eq_refl eq_refl Htyped
                (units "BTC 5 Minute"))
      as (callback & _ & _ & _ & Hcalls & _);
      [vm_compute; reflexivity | exact Hcalls].
Defined.

Lemma no_callback_forwards_to_chat_witness :
  snd (handleSendMessage Sample.without_callback Sample.signed_in
                         (Sample.typed "Load the BTC 5 Minute session"))
  = [CallSendChatMessage (units "Load the BTC 5 Minute session") (units "u1") None].
Proof.
  refine (eq_trans
            (f_equal snd
               (proj2 (@no_callback_forwards_to_chat
                         Sample.without_callback Sample.signed_in
                         (Sample.typed "Load the BTC 5 Minute session")
                         (mkUser (units "u1")) _ _ _ _)))
            _).
  - reflexivity.
  - reflexivity.
  - vm_compute. discriminate.
  - reflexivity.
  - reflexivity.
Defined.

End TurnWitnesses.

(** ** Numbers and counts *)

Section NumberFacts.
Import JS.
Local Open Scope Q_scope.

Lemma exact_laws : RoundingLaws exact.
Proof.
  split; unfold rnd, exact; intros; try reflexivity. assumption.
Qed.

Lemma or0_nat_Some n : or0_nat (Some n) = n.
Proof. destruct n; reflexivity. Qed.

Lemma sign_of_positive n : sign (inject_Z (Z.of_nat (S n))) = Gt.
Proof.
  unfold sign. apply Qgt_alt. unfold Qlt. simpl. lia.
Qed.

Lemma gt0_excludes_lt0 x : gt0 x = true -> lt0 x = false.
Proof.
  destruct x as [q| | |]; simpl; auto.
  destruct (sign q); auto; discriminate.
Qed.

Lemma zero_is_neither q : q == 0 -> gt0 (Num q) = false /\ lt0 (Num q) = false.
Proof.
  intros Hq. apply Qeq_alt in Hq. simpl. unfold sign. rewrite Hq. auto.
Qed.

Lemma filter_length_le (A : Type) (p : A -> bool) l :
  (length (filter p l) <= length l)%nat.
Proof. induction l as [|a l IH]; simpl; [lia|]. destruct (p a); simpl; lia. Qed.

Lemma disjoint_filters_le (A : Type) (p q : A -> bool) l :
  (forall a, p a = true -> q a = false) ->
  (length (filter p l) + length (filter q l) <= length l)%nat.
Proof.
  intros Hpq. induction l as [|a l IH]; simpl; [lia|].
  destruct (p a) eqn:Hp.
  - rewrite (Hpq a Hp). simpl. lia.
  - destruct (q a); simpl; lia.
Qed.

Context {R : Rounding} {RL : RoundingLaws R}.

Lemma rnd_within lo hi x :
  rnd lo == lo -> rnd hi == hi -> lo <= x <= hi -> lo <= rnd x <= hi.
Proof.
  intros Hlo Hhi [H1 H2]. split.
  - rewrite <- Hlo. apply rnd_monotone, H1.
  - rewrite <- Hhi. apply rnd_monotone, H2.
Qed.

Lemma of_rounded_within q :
  - max_value <= q <= max_value -> of_rounded q = Num q.
Proof.
  intros [Hlo Hhi]. unfold of_rounded.
  destruct (q ?= max_value) eqn:E1.
  - destruct (q ?= - max_value) eqn:E2; try reflexivity.
    apply Qlt_alt in E2. exfalso. exact (Qlt_not_le _ _ E2 Hlo).
  - destruct (q ?= - max_value) eqn:E2; try reflexivity.
    apply Qlt_alt in E2. exfalso. exact (Qlt_not_le _ _ E2 Hlo).
  - apply Qgt_alt in E1. exfalso. exact (Qlt_not_le _ _ E1 Hhi).
Qed.

(** A percentage is far inside the range of the format. *)
Lemma of_rounded_percent q : 0 <= q <= 100 -> of_rounded q = Num q.
Proof.
  intros [H0 H100]. apply of_rounded_within. split.
  - apply Qle_trans with 0; [|exact H0].
    apply Qle_bool_imp_le. vm_compute. reflexivity.
  - apply Qle_trans with 100; [exact H100|].
    apply Qle_bool_imp_le. vm_compute. reflexivity.
Qed.

(** A share of a non-zero count, in percent, is a finite number between
    0 and 100. *)
Lemma percent_range (w n : nat) :
  (w <= S n)%nat ->
  exists q, mul (div (of_nat w) (of_nat (S n))) (Num 100) = Num q /\
            0 <= q <= 100.
Proof.
  intros Hw.
  assert (Hpos : 0 < inject_Z (Z.of_nat (S n))) by (unfold Qlt; simpl; lia).
  assert (Hshare : 0 <= inject_Z (Z.of_nat w) / inject_Z (Z.of_nat (S n)) <= 1).
  { split.
    - apply Qle_shift_div_l; [exact Hpos|]. rewrite Qmult_0_l.
      unfold Qle. simpl. lia.
    - apply Qle_shift_div_r; [exact Hpos|]. rewrite Qmult_1_l.
      rewrite <- Zle_Qle. lia. }
  apply (rnd_within rnd_0 rnd_1) in Hshare. destruct Hshare as [H0 H1].
  assert (Hpercent :
            0 <= rnd (rnd (inject_Z (Z.of_nat w) / inject_Z (Z.of_nat (S n)))
                      * 100) <= 100).
  { apply (rnd_within rnd_0 rnd_100). split.
    - apply Qmult_le_0_compat; [exact H0 | discriminate].
    - setoid_replace 100 with (1 * 100) at 2 by reflexivity.
      apply Qmult_le_compat_r; [exact H1 | discriminate]. }
  unfold div, of_nat. rewrite sign_of_positive.
  rewrite of_rounded_percent
    by (split; [exact H0 | apply Qle_trans with 1; [exact H1 | discriminate]]).
  unfold mul. rewrite (of_rounded_percent Hpercent).
  eexists. split; [reflexivity | exact Hpercent].
Qed.

(** *** Sums *)

Lemma rnd_compat x y : x == y -> rnd x == rnd y.
Proof.
  intros E. apply Qle_antisym; apply rnd_monotone; rewrite E; apply Qle_refl.
Qed.

Lemma representable_spec q :
  representable q = true -> rnd q == q /\ - max_value <= q <= max_value.
Proof.
  unfold representable. rewrite !andb_true_iff. intros [[He Hlo] Hhi].
  split; [apply Qeq_bool_eq; exact He|].
  split; apply Qle_bool_imp_le; assumption.
Qed.

(** Adding to a running sum whose exact counterpart stays representable
    is exact. *)
Lemma add_exact a a' x :
  a == a' -> representable (a' + x) = true ->
  exists q, add (Num a) (Num x) = Num q /\ q == a' + x.
Proof.
  intros E Hr. apply representable_spec in Hr. destruct Hr as (He & Hlo & Hhi).
  assert (Hq : rnd (a + x) == a' + x).
  { transitivity (rnd (a' + x)); [|exact He].
    apply rnd_compat. rewrite E. reflexivity. }
  exists (rnd (a + x)). split; [|exact Hq].
  unfold add. apply of_rounded_within. rewrite Hq. split; assumption.
Qed.

Lemma fold_add_exact (A : Type) (f : A -> number) (amount : A -> Q) l :
  forall a a',
    a == a' ->
    (forall t, In t l -> f t = Num (amount t)) ->
    forallb representable (running_sums a' (map amount l)) = true ->
    exists q, fold_left (fun sum x => add sum (f x)) l (Num a) = Num q /\
              q == a' + exact_sum (map amount l).
Proof.
  induction l as [|t l IH]; intros a a' E Hf Hr.
  - exists a. split; [reflexivity|]. simpl. rewrite E. ring.
  - cbn [map running_sums forallb] in Hr.
    apply andb_true_iff in Hr. destruct Hr as [Hr Hrest].
    destruct (@add_exact a a' (amount t) E Hr) as (q & Eq & Hq).
    cbn [fold_left]. rewrite (Hf t (or_introl eq_refl)), Eq.
    destruct (IH q (a' + amount t) Hq
                 (fun t' Ht' => Hf t' (or_intror Ht')) Hrest)
      as (q' & Efold & Hq').
    exists q'. split; [exact Efold|].
    rewrite Hq'. simpl. ring.
Qed.

Lemma exact_sum_perm l l' : Permutation l l' -> exact_sum l == exact_sum l'.
Proof.
  induction 1; simpl.
  - reflexivity.
  - rewrite IHPermutation. reflexivity.
  - ring.
  - etransitivity; eassumption.
Qed.

Lemma or0_finite q s : q == s -> exists q', or0 (Num q) = Num q' /\ q' == s.
Proof.
  intros E. unfold or0, truthy, sign.
  destruct (q ?= 0) eqn:Ec.
  - exists 0. split; [reflexivity|].
    apply Qeq_alt in Ec. rewrite <- E, Ec. reflexivity.
  - exists q. split; [reflexivity | exact E].
  - exists q. split; [reflexivity | exact E].
Qed.

(** A [reduce] from 0 over finite amounts whose exact running sums are
    representable ends on the exact sum of the amounts, in whatever order
    they are listed. *)
Lemma sum_by_exact (A : Type) (f : A -> number) (amount : A -> Q) l all :
  Permutation all l ->
  (forall t, In t all -> f t = Num (amount t)) ->
  forallb representable (running_sums 0 (map amount l)) = true ->
  exists q, or0 (sum_by f l) = Num q /\ q == exact_sum (map amount all).
Proof.
  intros Hp Hf Hr.
  destruct (@fold_add_exact A f amount l 0 0 (Qeq_refl 0)
              (fun t Ht => Hf t (Permutation_in t (Permutation_sym Hp) Ht)) Hr)
    as (q & Efold & Hq).
  unfold sum_by, zero. rewrite Efold. apply or0_finite.
  rewrite Hq, Qplus_0_l. symmetry.
  apply exact_sum_perm, Permutation_map, Hp.
Qed.

End NumberFacts.

(** ** The claims on the statistics *)

Section StatisticsClaims.
Import JS Edge.
Local Open Scope Q_scope.

Context {R : Rounding}.

(** C5: over no trades at all, be it the empty list or the [null] of a
    query without data, every statistic of the summary and of the chat
    prompt is the number 0.  The win rate and the average return come
    from the branch on the count: the quotient they would otherwise
    compute, 0 / 0, is NaN. *)
Theorem empty_statistics_are_zero :
  let summary_is_zero (trades : option (list Trade)) :=
    SessionSummary.totalTrades trades = 0%nat /\
    SessionSummary.totalProfit trades = Num 0 /\
    SessionSummary.winningTrades trades = 0%nat /\
    SessionSummary.losingTrades trades = 0%nat /\
    SessionSummary.winRate trades = Num 0 /\
    SessionSummary.totalMargin trades = Num 0 /\
    SessionSummary.avgROI trades = Num 0 in
  let chat_is_zero (trades : option (list JoinedTrade)) :=
    or0_nat (option_map (@length _) trades) = 0%nat /\
    AiChat.totalProfit trades = Num 0 /\
    AiChat.winningTrades trades = 0%nat /\
    AiChat.losingTrades trades = 0%nat /\
    AiChat.winRate trades = Num 0 in
  summary_is_zero (Some []) /\ summary_is_zero None /\
  chat_is_zero (Some []) /\ chat_is_zero None /\
  div (of_nat 0) (of_nat 0) = NaN.
Proof. cbv zeta. repeat split. Qed.

Context {RL : RoundingLaws R}.

(** C4: for every sequence of trades, in the summary as in the chat
    prompt, the winning and the losing trades together are at most the
    trades counted, and the win rate is a number between 0 and 100; a
    trade whose profit is 0 adds to the total and to neither of the two
    counts. *)
Theorem statistics_within_bounds :
  (forall trades : option (list Trade),
     (SessionSummary.winningTrades trades + SessionSummary.losingTrades trades
      <= SessionSummary.totalTrades trades)%nat /\
     exists q, SessionSummary.winRate trades = Num q /\ 0 <= q <= 100) /\
  (forall trades : option (list JoinedTrade),
     (AiChat.winningTrades trades + AiChat.losingTrades trades
      <= or0_nat (option_map (@length _) trades))%nat /\
     exists q, AiChat.winRate trades = Num q /\ 0 <= q <= 100) /\
  (forall (t : Trade) (l : list Trade) (q : Q),
     profit_loss t = Num q -> q == 0 ->
     SessionSummary.totalTrades (Some (t :: l))
     = S (SessionSummary.totalTrades (Some l)) /\
     SessionSummary.winningTrades (Some (t :: l))
     = SessionSummary.winningTrades (Some l) /\
     SessionSummary.losingTrades (Some (t :: l))
     = SessionSummary.losingTrades (Some l)).
Proof.
  assert (Hzero : exists q, zero = Num q /\ 0 <= q <= 100).
  { exists 0. repeat split; discriminate. }
  split; [|split].
  - intros [l|]; [|split; [reflexivity | exact Hzero]].
    unfold SessionSummary.winRate, SessionSummary.winningTrades,
      SessionSummary.losingTrades, SessionSummary.totalTrades.
    cbn [option_map]. rewrite !or0_nat_Some.
    split.
    + apply disjoint_filters_le. intros t. apply gt0_excludes_lt0.
    + destruct (length l) as [|n] eqn:El; [exact Hzero|].
      apply percent_range. rewrite <- El. apply filter_length_le.
  - intros [l|]; [|split; [reflexivity | exact Hzero]].
    unfold AiChat.winRate, AiChat.winningTrades, AiChat.losingTrades.
    cbn [option_map]. rewrite !or0_nat_Some.
    split.
    + apply disjoint_filters_le. intros t. apply gt0_excludes_lt0.
    + destruct (length l) as [|n] eqn:El; [exact Hzero|].
      apply percent_range. rewrite <- El. apply filter_length_le.
  - intros t l q Hq Hq0.
    destruct (zero_is_neither Hq0) as [Hg Hl].
    unfold SessionSummary.winningTrades, SessionSummary.losingTrades,
      SessionSummary.totalTrades.
    cbn [option_map filter]. rewrite !or0_nat_Some, Hq, Hg, Hl. auto.
Qed.

End StatisticsClaims.

Section StatisticsWitness.
Import JS Edge.
Local Open Scope Q_scope.

(** Three trades with profits 100, -50 and 0, without rounding. *)
Example three_trades :
  let trades := Some (trades Sample.store) in
  SessionSummary.totalTrades trades = 3%nat /\
  SessionSummary.totalProfit (H := exact) trades = Num 50 /\
  SessionSummary.winningTrades trades = 1%nat /\
  SessionSummary.losingTrades trades = 1%nat /\
  SessionSummary.winRate (H := exact) trades = Num (100 # 3).
Proof. vm_compute. repeat split. Qed.

Lemma statistics_within_bounds_witness :
  exists q,
    SessionSummary.winRate (H := exact) (Some (trades Sample.store)) = Num q /\
    0 <= q <= 100.
Proof.
  exact (proj2 (proj1 (@statistics_within_bounds exact exact_laws)
                      (Some (trades Sample.store)))).
Defined.

End StatisticsWitness.

(** ** The order of a query result *)

Section OrderFacts.
Import Edge.
Variable A : Type.
Variable key : A -> Z.

Let newer_first (a b : A) : Prop := (key b <= key a)%Z.

Lemma insert_desc_perm x l : Permutation (x :: l) (insert_desc key x l).
Proof.
  induction l as [|y l IH]; simpl; [reflexivity|].
  destruct (key y <? key x)%Z; [reflexivity|].
  rewrite perm_swap. apply perm_skip, IH.
Qed.

Lemma order_desc_perm l : Permutation l (order_desc key l).
Proof.
  induction l as [|x l IH]; simpl; [reflexivity|].
  rewrite <- insert_desc_perm. apply perm_skip, IH.
Qed.

Lemma insert_desc_sorted x l :
  StronglySorted newer_first l -> StronglySorted newer_first (insert_desc key x l).
Proof.
  induction 1 as [|y l Hs IH Hy]; simpl.
  - repeat constructor.
  - destruct (key y <? key x)%Z eqn:E.
    + apply Z.ltb_lt in E. constructor; [constructor; assumption|].
      constructor; [unfold newer_first; lia|].
      apply Forall_impl with (2 := Hy). unfold newer_first. intros; lia.
    + apply Z.ltb_ge in E. constructor; [exact IH|].
      apply (Permutation_Forall (insert_desc_perm x l)).
      constructor; [exact E | exact Hy].
Qed.

Lemma order_desc_sorted l : StronglySorted newer_first (order_desc key l).
Proof.
  induction l as [|x l IH]; simpl; [constructor|].
  apply insert_desc_sorted, IH.
Qed.

Lemma sorted_app l1 l2 :
  StronglySorted newer_first (l1 ++ l2) ->
  StronglySorted newer_first l1 /\
  forall a b, In a l1 -> In b l2 -> newer_first a b.
Proof.
  induction l1 as [|x l1 IH]; simpl; intros Hs.
  - split; [constructor | intros a b []].
  - inversion Hs as [|? ? Hs' Hx]; subst.
    destruct (IH Hs') as [H1 H2]. split.
    + constructor; [exact H1|]. apply Forall_app in Hx. tauto.
    + intros a b [<-|Ha] Hb; [|auto].
      rewrite Forall_forall in Hx. apply Hx, in_or_app. auto.
Qed.

(** The first [n] rows of an ordered result are the [n] most recent. *)
Lemma firstn_order_desc_most_recent n all :
  most_recent key n all (firstn n (order_desc key all)).
Proof.
  pose proof (order_desc_sorted all) as Hs.
  rewrite <- (firstn_skipn n (order_desc key all)) in Hs.
  apply sorted_app in Hs. destruct Hs as [Hs Hle].
  split; [|split].
  - rewrite length_firstn, <- (Permutation_length (order_desc_perm all)).
    reflexivity.
  - exact Hs.
  - exists (skipn n (order_desc key all)). split; [|exact Hle].
    rewrite firstn_skipn. apply order_desc_perm.
Qed.

Lemma filter_perm (p : A -> bool) l l' :
  Permutation l l' -> Permutation (filter p l) (filter p l').
Proof.
  induction 1 as [|x l l' _ IH|x y l|l l' l'' _ IH1 _ IH2]; simpl.
  - constructor.
  - destruct (p x); [apply perm_skip|]; exact IH.
  - destruct (p x), (p y); try reflexivity. apply perm_swap.
  - exact (perm_trans IH1 IH2).
Qed.

End OrderFacts.

(** ** What the edge functions send to the completion backend *)

Section HandlerFacts.
Import JS Edge.
Context {R : Rounding}.

Ltac step := cbn [bind perform lift ret throw error data fst snd].

Ltac branch :=
  match goal with
  | |- context [fetch ?w ?x] => destruct (fetch w x)
  | |- context [ok ?x] => destruct (ok x)
  | |- context [http_json ?x] => destruct (http_json x)
  | |- context [first_content ?x] => destruct (first_content x)
  end.

(** The chat function sends at most one request, and only with a key. *)
Lemma chat_requests w (req : Request AiChat.ChatRequest) :
  requests (snd (AiChat.serve w req)) = [] \/
  exists c key prompt text,
    OPENAI_API_KEY w = Some (c :: key) /\
    requests (snd (AiChat.serve w req))
    = [mkCompletionRequest (c :: key) (units "gpt-4o-mini")
         [(system, ChatSystemPrompt prompt); (user, Text text)] 1000 (7 # 10)].
Proof.
  unfold AiChat.serve, AiChat.attempt, respond, preflight,
    select_sessions_of_user, select_trades_of_user, answer, require_key,
    complete.
  destruct (string_eqb (method req) (units "OPTIONS")); [left; reflexivity|].
  destruct (json req) as [r|]; step; [|left; reflexivity].
  destruct (sessions_error (database w)); step; [left; reflexivity|].
  destruct (trades_error (database w)); step; [left; reflexivity|].
  destruct (OPENAI_API_KEY w) as [[|c key]|]; step;
    [left; reflexivity | | left; reflexivity].
  right. exists c, key. do 2 eexists. split; [reflexivity|].
  repeat (branch; step); reflexivity.
Qed.

(** So does the summary function. *)
Lemma summary_requests w (req : Request SessionSummary.SummaryRequest) :
  requests (snd (SessionSummary.serve w req)) = [] \/
  exists c key prompt,
    OPENAI_API_KEY w = Some (c :: key) /\
    requests (snd (SessionSummary.serve w req))
    = [mkCompletionRequest (c :: key) (units "gpt-4o-mini")
         [(system, SummarySystemPrompt prompt)] 800 (7 # 10)].
Proof.
  unfold SessionSummary.serve, SessionSummary.attempt, respond, preflight,
    select_trades_of_session, answer, require_key, complete.
  destruct (string_eqb (method req) (units "OPTIONS")); [left; reflexivity|].
  destruct (json req) as [r|]; step; [|left; reflexivity].
  destruct (select_single_session _ _ _) as [[session|] [e|]]; step;
    try (left; reflexivity).
  destruct (trades_error (database w)); step; [left; reflexivity|].
  destruct (OPENAI_API_KEY w) as [[|c key]|]; step;
    [left; reflexivity | | left; reflexivity].
  right. exists c, key. eexists. split; [reflexivity|].
  repeat (branch; step); reflexivity.
Qed.

(** The request of the chat function when the store answers and a key is
    configured. *)
Lemma chat_request_sent w (req : Request AiChat.ChatRequest) r c key :
  string_eqb (method req) (units "OPTIONS") = false ->
  json req = Ok r ->
  sessions_error (database w) = None ->
  trades_error (database w) = None ->
  OPENAI_API_KEY w = Some (c :: key) ->
  requests (snd (AiChat.serve w req))
  = [mkCompletionRequest (c :: key) (units "gpt-4o-mini")
       [(system,
         ChatSystemPrompt
           (AiChat.systemPrompt w
              (data (select_sessions_of_user (database w) (AiChat.userId r)))
              (data (select_trades_of_user (database w) (AiChat.userId r)))));
        (user, Text (AiChat.message r))]
       1000 (7 # 10)].
Proof.
  intros Hm Hj Hs Ht Hk.
  unfold AiChat.serve, AiChat.attempt, respond. rewrite Hm, Hj.
  unfold select_sessions_of_user, select_trades_of_user, answer.
  rewrite Hs, Ht. unfold require_key. rewrite Hk. unfold complete. step.
  repeat (branch; step); reflexivity.
Qed.

(** Without a key the chat function answers 500 and names the key in
    [details], unless it failed before. *)
Lemma chat_without_key w (req : Request AiChat.ChatRequest) :
  OPENAI_API_KEY w = None \/ OPENAI_API_KEY w = Some [] ->
  string_eqb (method req) (units "OPTIONS") = false ->
  exists details,
    fst (AiChat.serve w req)
    = mkResponse 500 true
        (Failure (units "Failed to process chat request") details) /\
    (forall r, json req = Ok r ->
               sessions_error (database w) = None ->
               trades_error (database w) = None ->
               details = not_configured).
Proof.
  intros Hk Hm.
  unfold AiChat.serve, AiChat.attempt, respond,
    select_sessions_of_user, select_trades_of_user, answer, require_key.
  rewrite Hm.
  destruct (json req) as [r|e]; step.
  - destruct (sessions_error (database w)); step;
      [eexists; split; [reflexivity | intros; discriminate]|].
    destruct (trades_error (database w)); step;
      [eexists; split; [reflexivity | intros; discriminate]|].
    destruct Hk as [-> | ->]; step; eexists; split; reflexivity || auto.
  - eexists. split; [reflexivity | intros; discriminate].
Qed.

Lemma summary_without_key w (req : Request SessionSummary.SummaryRequest) :
  OPENAI_API_KEY w = None \/ OPENAI_API_KEY w = Some [] ->
  string_eqb (method req) (units "OPTIONS") = false ->
  exists details,
    fst (SessionSummary.serve w req)
    = mkResponse 500 true
        (Failure (units "Failed to generate session summary") details) /\
    (forall r session,
        json req = Ok r ->
        select_single_session (database w) (SessionSummary.sessionId r)
                              (SessionSummary.userId r)
        = mkQueryResult (Some session) None ->
        trades_error (database w) = None ->
        details = not_configured).
Proof.
  intros Hk Hm.
  unfold SessionSummary.serve, SessionSummary.attempt, respond,
    select_trades_of_session, answer, require_key.
  rewrite Hm.
  destruct (json req) as [r|e]; step.
  - destruct (select_single_session _ _ _) as [[session|] [e|]] eqn:Es; step;
      try (eexists; split; [reflexivity | intros ? ? [= <-] E; rewrite Es in E; discriminate]).
    destruct (trades_error (database w)); step;
      [eexists; split; [reflexivity | intros; discriminate]|].
    destruct Hk as [-> | ->]; step; eexists; split; reflexivity || auto.
  - eexists. split; [reflexivity | intros; discriminate].
Qed.

End HandlerFacts.

(** ** The claims on the edge functions *)

Section EdgeClaims.
Import JS Edge.
Context {R : Rounding}.

(** C3, amended: every completion request of the summary function asks
    for 800 tokens and every one of the chat function for 1000: the
    budget of the summary is the smaller of the two. *)
Theorem summary_budget_is_smaller
        (w w' : World) (chat : Request AiChat.ChatRequest)
        (summary : Request SessionSummary.SummaryRequest)
        (chat_request summary_request : CompletionRequest) :
  In chat_request (requests (snd (AiChat.serve w chat))) ->
  In summary_request (requests (snd (SessionSummary.serve w' summary))) ->
  max_tokens summary_request = 800%N /\
  max_tokens chat_request = 1000%N /\
  (max_tokens summary_request < max_tokens chat_request)%N.
Proof.
  intros Hc Hs.
  destruct (chat_requests w chat) as [E | (c & key & p & t & _ & E)];
    rewrite E in Hc; [destruct Hc|].
  destruct (summary_requests w' summary) as [E' | (c' & key' & p' & _ & E')];
    rewrite E' in Hs; [destruct Hs|].
  destruct Hc as [<-|[]]. destruct Hs as [<-|[]].
  repeat split.
Qed.

(** C8, amended: without an API key neither function sends a completion
    request, so nothing is retried; each answers with status 500 and its
    own fixed [error] text, and, when the request was read and the store
    answered, with the [details] "OpenAI API key not configured".  In the
    widget a failed call of the chat service shows the fixed notice
    "Failed to get Sydney's response" and adds no assistant message. *)
Theorem missing_key_fails_before_completion (w : World) :
  OPENAI_API_KEY w = None \/ OPENAI_API_KEY w = Some [] ->
  (forall req : Request AiChat.ChatRequest,
     string_eqb (method req) (units "OPTIONS") = false ->
     requests (snd (AiChat.serve w req)) = [] /\
     exists details,
       fst (AiChat.serve w req)
       = mkResponse 500 true
           (Failure (units "Failed to process chat request") details) /\
       (forall r, json req = Ok r ->
                  sessions_error (database w) = None ->
                  trades_error (database w) = None ->
                  details = units "OpenAI API key not configured")) /\
  (forall req : Request SessionSummary.SummaryRequest,
     string_eqb (method req) (units "OPTIONS") = false ->
     requests (snd (SessionSummary.serve w req)) = [] /\
     exists details,
       fst (SessionSummary.serve w req)
       = mkResponse 500 true
           (Failure (units "Failed to generate session summary") details) /\
       (forall r session,
          json req = Ok r ->
          select_single_session (database w) (SessionSummary.sessionId r)
                                (SessionSummary.userId r)
          = mkQueryResult (Some session) None ->
          trades_error (database w) = None ->
          details = units "OpenAI API key not configured")) /\
  (forall props env st u,
     let currentInput := trim (ChatInterface.inputMessage st) in
     ChatInterface.auth_user env = Some u ->
     ChatInterface.isLoading st = false ->
     currentInput <> [] ->
     ChatInterface.classify props currentInput = ChatInterface.GeneralQuery ->
     ChatInterface.sendChatMessage env currentInput (ChatInterface.user_id u)
                                   (ChatInterface.currentSessionId props)
     = ChatInterface.Throws ->
     ChatInterface.handleSendMessage props env st
     = (ChatInterface.mkState
          (ChatInterface.messages st ++
           [ChatInterface.mkChatMessage
              (toString (ChatInterface.now_submit env)) ChatInterface.user
              currentInput (ChatInterface.now_submit env)])
          [] false,
        [ChatInterface.CallSendChatMessage
           currentInput (ChatInterface.user_id u)
           (ChatInterface.currentSessionId props);
         ChatInterface.ToastError (units "Failed to get Sydney's response");
         ChatInterface.ConsoleError])).
Proof.
  intros Hk. split; [|split].
  - intros req Hm. split.
    + destruct (chat_requests w req) as [E | (c & key & _ & _ & E & _)];
        [exact E | destruct Hk as [Hk|Hk]; congruence].
    + apply chat_without_key; assumption.
  - intros req Hm. split.
    + destruct (summary_requests w req) as [E | (c & key & _ & E & _)];
        [exact E | destruct Hk as [Hk|Hk]; congruence].
    + apply summary_without_key; assumption.
  - intros props env st u currentInput Hu Hl Hi Hc Hthrow.
    rewrite (@general_turn props env st u Hu Hl Hi Hc).
    cbv zeta. fold currentInput. rewrite Hthrow. reflexivity.
Qed.

(** C9: the chat function never reads [sessionId]: two requests that
    differ in it alone get the same response after the same calls, and
    the totals of the prompt count every session and every trade of the
    user, whatever [sessionId] is. *)
Theorem sessionId_is_ignored
        (w : World) (method message userId : jsstring)
        (sessionId sessionId' : option jsstring) :
  let request sid :=
    mkRequest method (Ok (AiChat.mkChatRequest message sid userId)) in
  AiChat.serve w (request sessionId) = AiChat.serve w (request sessionId') /\
  (forall c key,
     string_eqb method (units "OPTIONS") = false ->
     sessions_error (database w) = None ->
     trades_error (database w) = None ->
     OPENAI_API_KEY w = Some (c :: key) ->
     exists prompt,
       requests (snd (AiChat.serve w (request sessionId)))
       = [mkCompletionRequest (c :: key) (units "gpt-4o-mini")
            [(system, ChatSystemPrompt prompt); (user, Text message)]
            1000 (7 # 10)] /\
       cp_totalSessions prompt
       = length (filter (fun s => string_eqb (ts_user_id s) userId)
                        (trading_sessions (database w))) /\
       cp_totalTrades prompt
       = length (flat_map (join_user (database w) userId)
                          (trades (database w)))).
Proof.
  intros request. split; [reflexivity|].
  intros c key Hm Hs Ht Hk. eexists. split.
  - apply (@chat_request_sent R w (request sessionId) _ c key Hm eq_refl Hs Ht Hk).
  - unfold select_sessions_of_user, select_trades_of_user, answer.
    rewrite Hs, Ht. cbn [data AiChat.systemPrompt cp_totalSessions
                         cp_totalTrades option_map AiChat.userId].
    rewrite !or0_nat_Some.
    split; symmetry; apply Permutation_length, order_desc_perm.
Qed.

(** C2: without a focus session the prompt of the chat function shows the
    5 most recent sessions and the 10 most recent trades of the user, the
    newest first, while its statistics count every trade of the user:
    the total, the winning and the losing trades, the net profit and the
    win rate are those of the whole result of the query.  The net profit
    is the sum of the profits of all the trades of the user, shown or
    not, whenever they are finite and the running sums, in the order the
    query returns the trades, are values of the number format. *)
Theorem chat_prompt_truncates_examples_only
        (w : World) (req : Request AiChat.ChatRequest)
        (r : AiChat.ChatRequest) (c : N) (key : jsstring) :
  string_eqb (method req) (units "OPTIONS") = false ->
  json req = Ok r ->
  sessions_error (database w) = None ->
  trades_error (database w) = None ->
  OPENAI_API_KEY w = Some (c :: key) ->
  let all_sessions :=
    filter (fun s => string_eqb (ts_user_id s) (AiChat.userId r))
           (trading_sessions (database w)) in
  let all_trades :=
    flat_map (join_user (database w) (AiChat.userId r)) (trades (database w)) in
  let at_ (t : JoinedTrade) := created_at (jt_trade t) in
  exists prompt,
    requests (snd (AiChat.serve w req))
    = [mkCompletionRequest (c :: key) (units "gpt-4o-mini")
         [(system, ChatSystemPrompt prompt); (user, Text (AiChat.message r))]
         1000 (7 # 10)] /\
    (exists shown,
       cp_recentSessions prompt = Some shown /\ (length shown <= 5)%nat /\
       most_recent ts_created_at 5 all_sessions shown) /\
    (exists shown,
       cp_recentTrades prompt = Some shown /\ (length shown <= 10)%nat /\
       most_recent at_ 10 all_trades shown) /\
    cp_totalTrades prompt = length all_trades /\
    cp_winningTrades prompt
    = length (filter (fun t => gt0 (AiChat.pl t)) all_trades) /\
    cp_losingTrades prompt
    = length (filter (fun t => lt0 (AiChat.pl t)) all_trades) /\
    cp_totalProfit prompt = or0 (sum_by AiChat.pl (order_desc at_ all_trades)) /\
    cp_winRate prompt
    = match length all_trades with
      | O => zero
      | S _ =>
          mul (div (of_nat (length (filter (fun t => gt0 (AiChat.pl t))
                                           all_trades)))
                   (of_nat (length all_trades)))
              (Num 100)
      end /\
    (RoundingLaws R ->
     forall amount : JoinedTrade -> Q,
       (forall t, In t all_trades -> AiChat.pl t = Num (amount t)) ->
       forallb representable
               (running_sums 0 (map amount (order_desc at_ all_trades)))
       = true ->
       exists q, cp_totalProfit prompt = Num q /\
                 (q == exact_sum (map amount all_trades))%Q).
Proof.
  intros Hm Hj Hs Ht Hk all_sessions all_trades at_.
  eexists. split; [apply (@chat_request_sent R w req r c key Hm Hj Hs Ht Hk)|].
  unfold select_sessions_of_user, select_trades_of_user, answer.
  rewrite Hs, Ht.
  fold all_sessions. fold all_trades. fold at_.
  cbn [data AiChat.systemPrompt cp_recentSessions cp_recentTrades
       cp_totalTrades cp_winningTrades cp_losingTrades cp_totalProfit
       cp_winRate option_map].
  pose proof (order_desc_perm at_ all_trades) as Hp.
  assert (Hwin : length (filter (fun t => gt0 (AiChat.pl t))
                                (order_desc at_ all_trades))
                 = length (filter (fun t => gt0 (AiChat.pl t)) all_trades)).
  { symmetry. apply Permutation_length, filter_perm, Hp. }
  split; [|split; [|split; [|split; [|split; [|split; [|split]]]]]].
  - eexists. split; [reflexivity|]. split.
    + rewrite length_firstn. apply Nat.le_min_l.
    + apply firstn_order_desc_most_recent.
  - eexists. split; [reflexivity|]. split.
    + rewrite length_firstn. apply Nat.le_min_l.
    + apply firstn_order_desc_most_recent.
  - rewrite or0_nat_Some. symmetry. apply Permutation_length, Hp.
  - unfold AiChat.winningTrades. cbn [option_map].
    rewrite or0_nat_Some. exact Hwin.
  - unfold AiChat.losingTrades. cbn [option_map]. rewrite or0_nat_Some.
    symmetry. apply Permutation_length, filter_perm, Hp.
  - reflexivity.
  - unfold AiChat.winRate, AiChat.winningTrades. cbn [option_map].
    rewrite or0_nat_Some, Hwin, <- (Permutation_length Hp). reflexivity.
  - intros RL amount Hfinite Hsums.
    exact (@sum_by_exact R RL JoinedTrade AiChat.pl amount
             (order_desc at_ all_trades) all_trades Hp Hfinite Hsums).
Qed.

End EdgeClaims.

Section EdgeWitnesses.
Import JS Edge.

(** C3, as stated, fails: on the sample data the chat function asks for
    1000 tokens and the summary function for 800, which is not more. *)
Lemma summary_budget_is_not_larger :
  requests (snd (AiChat.serve (H := exact) Sample.world Sample.chat))
  = [Sample.chat_request] /\
  requests (snd (SessionSummary.serve (H := exact) Sample.world Sample.summary))
  = [Sample.summary_request] /\
  ~ (max_tokens Sample.chat_request < max_tokens Sample.summary_request)%N.
Proof.
  split; [vm_compute; reflexivity|].
  split; [vm_compute; reflexivity|].
  vm_compute. discriminate.
Qed.

Lemma summary_budget_is_smaller_witness :
  (max_tokens Sample.summary_request < max_tokens Sample.chat_request)%N.
Proof.
  refine (proj2 (proj2 (@summary_budget_is_smaller
                          exact Sample.world Sample.world
                          Sample.chat Sample.summary
                          Sample.chat_request Sample.summary_request _ _)));
    vm_compute; left; reflexivity.
Defined.

(** C8, as stated, fails: on the sample data without a key the response
    of the chat function carries, in [details], a text that names the
    missing credential, the OpenAI API key. *)
Lemma missing_key_is_named_in_details :
  exists details,
    body (fst (AiChat.serve (H := exact) Sample.world_without_key Sample.chat))
    = Failure (units "Failed to process chat request") details /\
    details = units "OpenAI API key not configured" /\
    occurs (units "OpenAI API key") details = true.
Proof.
  eexists. split; [vm_compute; reflexivity|].
  split; vm_compute; reflexivity.
Qed.

Lemma missing_key_fails_before_completion_witness :
  requests (snd (AiChat.serve (H := exact) Sample.world_without_key Sample.chat))
  = [] /\
  requests (snd (SessionSummary.serve (H := exact) Sample.world_without_key
                                      Sample.summary))
  = [].
Proof.
  pose proof (@missing_key_fails_before_completion
                exact Sample.world_without_key (or_introl eq_refl))
    as (Hchat & Hsummary & _).
  split.
  - exact (proj1 (Hchat Sample.chat eq_refl)).
  - exact (proj1 (Hsummary Sample.summary eq_refl)).
Defined.

Lemma sessionId_is_ignored_witness :
  exists prompt,
    requests (snd (AiChat.serve (H := exact) Sample.world
                     (mkRequest (units "POST")
                        (Ok (AiChat.mkChatRequest (units "How am I doing?")
                               (Some (units "s1")) (units "u1"))))))
    = [mkCompletionRequest (units "sk-sample") (units "gpt-4o-mini")
         [(system, ChatSystemPrompt prompt);
          (user, Text (units "How am I doing?"))]
         1000 (7 # 10)] /\
    cp_totalSessions prompt = 1%nat /\ cp_totalTrades prompt = 3%nat.
Proof.
  refine (proj2 (@sessionId_is_ignored
                   exact Sample.world (units "POST") (units "How am I doing?")
                   (units "u1") (Some (units "s1")) None)
                115%N (units "k-sample") _ _ _ _); reflexivity.
Defined.

Lemma busy_profits_finite (t : JoinedTrade) :
  In t (flat_map (join_user Sample.busy_store (units "u1"))
                 (trades Sample.busy_store)) ->
  AiChat.pl t = Num (Sample.profit t).
Proof.
  intros Hin. vm_compute in Hin.
  repeat (destruct Hin as [<-|Hin]; [reflexivity|]). contradiction.
Qed.

Lemma chat_prompt_truncates_examples_only_witness :
  exists prompt sessions_shown trades_shown net,
    requests (snd (AiChat.serve (H := exact) Sample.busy_world Sample.chat))
    = [mkCompletionRequest (units "sk-sample") (units "gpt-4o-mini")
         [(system, ChatSystemPrompt prompt);
          (user, Text (units "How am I doing?"))]
         1000 (7 # 10)] /\
    cp_recentSessions prompt = Some sessions_shown /\
    length sessions_shown = 5%nat /\
    cp_recentTrades prompt = Some trades_shown /\
    length trades_shown = 10%nat /\
    cp_totalTrades prompt = 12%nat /\
    cp_winningTrades prompt = 6%nat /\
    cp_losingTrades prompt = 5%nat /\
    cp_totalProfit prompt = Num net /\ (net == 6)%Q /\
    (exact_sum (map Sample.profit trades_shown) == 15)%Q.
Proof.
  destruct (@chat_prompt_truncates_examples_only
              exact Sample.busy_world Sample.chat
              (AiChat.mkChatRequest (units "How am I doing?") None (units "u1"))
              115%N (units "k-sample")
              eq_refl eq_refl eq_refl eq_refl eq_refl)
    as (prompt & Hreq & (ss & Hss & _ & Hs5 & _) & (ts & Hts & _ & Ht10 & _)
        & Htotal & Hwin & Hlose & _ & _ & Hnet).
  destruct (Hnet exact_laws Sample.profit busy_profits_finite eq_refl)
    as (net & Enet & Hsum).
  exists prompt, ss, ts, net.
  do 9 (split; [assumption|]). split.
  - rewrite Hsum. vm_compute. reflexivity.
  - vm_compute in Hreq. injection Hreq as Eprompt. subst prompt.
    injection Hts as <-. vm_compute. reflexivity.
Defined.

End EdgeWitnesses.

(** * Further properties *)

(** ** The longest and the shortest repetition *)

Section Priority.
Import JS RegExp ChatInterface.
Variable R : Type.
Implicit Types (s m : jsstring) (k : jsstring -> option R).

(** A greedy repetition settles on the longest run the continuation
    accepts. *)
Lemma star_greedy_longest cls s k x :
  star_greedy cls s k = Some x ->
  exists m s',
    s = m ++ s' /\ Forall (fun c => cls c = true) m /\ k s' = Some x /\
    forall m2 s2, s' = m2 ++ s2 -> m2 <> [] ->
                  Forall (fun c => cls c = true) m2 -> k s2 = None.
Proof.
  induction s as [|c s IH]; simpl; intros Hx.
  - exists [], []. repeat split; auto.
    intros m2 s2 E Hne. destruct m2; [congruence | discriminate].
  - destruct (cls c) eqn:Hc.
    + destruct (star_greedy cls s k) as [r|] eqn:Hs.
      * injection Hx as <-.
        destruct (IH eq_refl) as (m & s' & -> & Hf & Hk & Hmax).
        exists (c :: m), s'. repeat split; auto.
      * exists [], (c :: s). repeat split; auto.
        intros m2 s2 E Hne Hf2. destruct m2 as [|c2 m2]; [congruence|].
        injection E as <- ->. inversion Hf2; subst.
        destruct (k s2) eqn:Hk; [|reflexivity].
        exfalso. apply (@star_greedy_complete R cls m2 s2 k); auto. congruence.
    + exists [], (c :: s). repeat split; auto.
      intros m2 s2 E Hne Hf2. destruct m2 as [|c2 m2]; [congruence|].
      injection E as <- ->. inversion Hf2; congruence.
Qed.

Lemma run_Plus_longest cls s cap (k : cont R) x :
  run (Plus cls) s cap k = Some x ->
  exists m s',
    s = m ++ s' /\ m <> [] /\ Forall (fun c => cls c = true) m /\
    k s' cap = Some x /\
    forall m2 s2, s' = m2 ++ s2 -> m2 <> [] ->
                  Forall (fun c => cls c = true) m2 -> k s2 cap = None.
Proof.
  simpl. unfold plus_with. destruct s as [|c s]; [discriminate|].
  destruct (cls c) eqn:Hc; [|discriminate]. intros Hx.
  apply star_greedy_longest in Hx.
  destruct Hx as (m & s' & -> & Hf & Hk & Hmax).
  exists (c :: m), s'. repeat split; auto. discriminate.
Qed.

Lemma run_Str_inv p s cap (k : cont R) x :
  run (Str p) s cap k = Some x ->
  exists m s', s = m ++ s' /\ same_letters m p /\ k s' cap = Some x.
Proof.
  simpl. destruct (match_str p s) as [s'|] eqn:Hm; [|discriminate].
  intros Hk. destruct (match_str_sound _ _ Hm) as (m & -> & Hf). eauto.
Qed.

Lemma run_Alt_inv r1 r2 s cap (k : cont R) x :
  run (Alt r1 r2) s cap k = Some x ->
  run r1 s cap k = Some x \/ run r2 s cap k = Some x.
Proof. simpl. destruct (run r1 s cap k); auto. Qed.

Lemma run_Opt_inv r s cap (k : cont R) x :
  run (Opt r) s cap k = Some x ->
  run r s cap k = Some x \/ k s cap = Some x.
Proof. simpl. destruct (run r s cap k); auto. Qed.

Lemma run_Opt_none r s cap (k : cont R) :
  run (Opt r) s cap k = None -> k s cap = None.
Proof. simpl. destruct (run r s cap k); [discriminate | auto]. Qed.

Lemma run_Eol_inv s cap (k : cont R) x :
  run Eol s cap k = Some x -> s = [] /\ k [] cap = Some x.
Proof. simpl. destruct s; [auto | discriminate]. Qed.

Lemma run_Group_PlusLazy_inv cls s cap (k : cont R) x :
  run (Group (PlusLazy cls)) s cap k = Some x ->
  exists g s',
    s = g ++ s' /\ g <> [] /\ Forall (fun c => cls c = true) g /\
    k s' (Some g) = Some x.
Proof.
  cbn [run]. intros Hx.
  apply plus_with_sound in Hx; [|intros; eapply star_lazy_sound; eassumption].
  destruct Hx as (g & s' & -> & Hne & Hf & Hk).
  rewrite firstn_app_exact in Hk. exists g, s'. repeat split; auto.
Qed.

Lemma run_verb_inv s cap (k : cont R) x :
  run verbPattern s cap k = Some x ->
  exists v p s', s = v ++ s' /\ In p verbs /\ same_letters v p /\
                 k s' cap = Some x.
Proof.
  unfold verbPattern, verbs. intros H.
  apply run_Alt_inv in H. destruct H as [H|H].
  - apply run_Str_inv in H. destruct H as (m & s' & -> & Hm & Hk).
    exists m, (units "load"), s'. simpl. auto.
  - apply run_Alt_inv in H. destruct H as [H|H];
      apply run_Str_inv in H; destruct H as (m & s' & -> & Hm & Hk);
      eexists m, _, s'; (repeat split; [|exact Hm|exact Hk]); simpl; auto.
Qed.

End Priority.

(** ** What [trim] leaves *)

Section TrimFacts.
Import JS.

Lemma trimStart_split s :
  exists a, s = a ++ trimStart s /\ Forall (fun c => is_space c = true) a.
Proof.
  induction s as [|c s (a & E & Ha)]; simpl.
  - exists []. auto.
  - destruct (is_space c) eqn:Hc.
    + exists (c :: a). split; [simpl; f_equal; exact E | constructor; assumption].
    + exists []. auto.
Qed.

Lemma trimStart_head s c t : trimStart s = c :: t -> is_space c = false.
Proof.
  induction s as [|d s IH]; simpl; [discriminate|].
  destruct (is_space d) eqn:Hd; [exact IH|]. intros [= <- _]. exact Hd.
Qed.

Lemma trimStart_snoc l c :
  is_space c = false -> trimStart (l ++ [c]) = trimStart l ++ [c].
Proof.
  intros Hc. induction l as [|d l IH]; simpl.
  - rewrite Hc. reflexivity.
  - destruct (is_space d); [exact IH | reflexivity].
Qed.

(** [s] is [trim s] between two runs of white space. *)
Lemma trim_split s :
  exists a b,
    s = a ++ trim s ++ b /\
    Forall (fun c => is_space c = true) a /\
    Forall (fun c => is_space c = true) b.
Proof.
  destruct (trimStart_split s) as (a & Ea & Ha).
  destruct (trimStart_split (rev (trimStart s))) as (b & Eb & Hb).
  exists a, (rev b). repeat split; auto.
  - unfold trim, trimEnd. rewrite <- rev_app_distr, <- Eb, rev_involutive.
    exact Ea.
  - apply Forall_rev, Hb.
Qed.

(** [trim s] is empty or has a character that is no white space at each
    end. *)
Lemma trim_ends s :
  trim s = [] \/
  (exists c t, trim s = c :: t /\ is_space c = false) /\
  (exists t z, trim s = t ++ [z] /\ is_space z = false).
Proof.
  unfold trim, trimEnd.
  destruct (trimStart s) as [|c t] eqn:Es; [left; reflexivity|].
  right. pose proof (@trimStart_head _ _ _ Es) as Hc.
  simpl rev. rewrite (@trimStart_snoc (rev t) c Hc), rev_app_distr. simpl.
  split; [eauto|].
  destruct (trimStart (rev t)) as [|z r] eqn:Er.
  - exists [], c. auto.
  - exists (c :: rev r), z. simpl. split; [reflexivity|].
    apply (@trimStart_head _ _ _ Er).
Qed.

Lemma trim_idempotent s : trim (trim s) = trim s.
Proof.
  destruct (trim_ends s) as [-> | ((c & t & E & Hc) & (t' & z & E' & Hz))].
  - reflexivity.
  - unfold trim at 1, trimEnd. rewrite E, (@trimStart_outside c t Hc), <- E.
    rewrite E', rev_unit, (@trimStart_outside z (rev t') Hz), <- rev_unit.
    apply rev_involutive.
Qed.

Lemma trim_empty s : trim s = [] -> Forall (fun c => is_space c = true) s.
Proof.
  intros E. destruct (trim_split s) as (a & b & Es & Ha & Hb).
  rewrite E in Es. rewrite Es. apply Forall_app. auto.
Qed.

Lemma all_space_trim s : Forall (fun c => is_space c = true) s -> trim s = [].
Proof.
  intros H. unfold trim, trimEnd.
  assert (E : trimStart s = []).
  { induction H as [|c s Hc _ IH]; simpl; [reflexivity|]. rewrite Hc. exact IH. }
  rewrite E. reflexivity.
Qed.

End TrimFacts.

(** ** What the pattern captures *)

Section CaptureFacts.
Import JS RegExp ChatInterface.

(** A code unit between "!" and the end of ASCII is no white space and
    ends no line. *)
Lemma visible_ascii c :
  (33 <= c <= 127)%N ->
  is_space c = false /\ is_line_terminator c = false.
Proof.
  intros Hc. unfold is_space, is_line_terminator.
  repeat match goal with
         | |- context [N.eqb c ?n] => destruct (N.eqb_spec c n); [lia|]
         end.
  destruct (N.leb_spec 8192 c); [lia|]. auto.
Qed.

(** Up to case, a letter is matched by itself and by its capital. *)
Lemma letter_matched c a :
  (97 <= a <= 122)%N -> eq_ignore_case c a = true -> c = a \/ c = (a - 32)%N.
Proof.
  intros Ha. unfold eq_ignore_case, canonicalize.
  destruct (N.leb_spec 97 a); [|lia]. destruct (N.leb_spec a 122); [|lia].
  simpl. intros E. apply N.eqb_eq in E.
  destruct (N.leb_spec 97 c); destruct (N.leb_spec c 122); simpl in E; lia.
Qed.

Lemma session_visible e :
  same_letters e (units "session") ->
  e <> [] /\
  Forall (fun c => dot c = true) e /\
  exists c e', e = c :: e' /\ is_space c = false.
Proof.
  intros H.
  assert (Hall : Forall (fun c => (33 <= c <= 127)%N) e).
  { assert (Hp : Forall (fun a => (97 <= a <= 122)%N) (units "session"))
      by (repeat constructor; simpl; lia).
    revert Hp. induction H as [|c a e p Hc _ IH]; intros Hp; [constructor|].
    inversion Hp; subst. constructor; [|auto].
    destruct (@letter_matched c a H1 Hc); lia. }
  inversion H as [|c a e' p' Hc Hr]; subst.
  split; [discriminate|]. split.
  - apply Forall_impl with (2 := Hall). intros x Hx.
    unfold dot. rewrite (proj2 (@visible_ascii x Hx)). reflexivity.
  - exists c, e'. split; [reflexivity|].
    inversion Hall; subst. apply visible_ascii. assumption.
Qed.

Lemma exec_inv r s cap :
  exec r s = Some cap ->
  exists pre s0, s = pre ++ s0 /\ run r s0 None accept = Some cap.
Proof.
  induction s as [|c s IH]; simpl; intros Hx.
  - destruct (run r [] None accept) eqn:Hr; [|discriminate].
    exists [], []. rewrite Hr. auto.
  - destruct (run r (c :: s) None accept) eqn:Hr.
    + exists [], (c :: s). rewrite Hr. auto.
    + destruct (IH Hx) as (pre & s0 & -> & H0).
      exists (c :: pre), s0. auto.
Qed.

(** What follows the name: nothing, or white space and "session". *)
Lemma run_tail_inv s g cap :
  run tailPattern s (Some g) accept = Some cap ->
  cap = Some g /\
  (s = [] \/
   exists w e, s = w ++ e /\ w <> [] /\
               Forall (fun c => is_space c = true) w /\
               same_letters e (units "session")).
Proof.
  unfold tailPattern. rewrite run_Seq_eq. intros H.
  apply run_Opt_inv in H. destruct H as [H|H].
  - rewrite run_Seq_eq in H. apply run_Plus_longest in H.
    destruct H as (w & s' & -> & Hne & Hw & H & _).
    apply run_Str_inv in H. destruct H as (e & s'' & -> & He & H).
    apply run_Eol_inv in H. destruct H as [-> H]. injection H as <-.
    split; [reflexivity|]. right. exists w, e. rewrite app_nil_r. auto.
  - apply run_Eol_inv in H. destruct H as [-> H]. injection H as <-. auto.
Qed.

(** The name alone, then what may follow it, is always accepted when the
    name is "session" itself. *)
Lemma session_is_a_name e cap :
  same_letters e (units "session") ->
  run (Seq (Group (PlusLazy dot)) tailPattern) e cap accept <> None.
Proof.
  intros He. destruct (@session_visible e He) as (Hne & Hdot & _).
  rewrite <- (app_nil_r e).
  apply run_complete; [|discriminate].
  rewrite <- (app_nil_r e). apply M_Seq.
  - apply M_Group, M_PlusLazy; assumption.
  - unfold tailPattern. change (@nil N) with (@nil N ++ []).
    apply M_Seq; [apply M_OptNone | apply M_Eol].
Qed.

(** Every match of the pattern: the name is a piece of the message as it
    stands, on one line; and a name of white space alone can only be what
    ends the message. *)
Lemma sessionSwitchMatch_inv s cap :
  sessionSwitchMatch s = Some cap ->
  exists before g after,
    cap = Some g /\ s = before ++ g ++ after /\ g <> [] /\
    Forall (fun c => dot c = true) g /\
    (Forall (fun c => is_space c = true) g -> after = []).
Proof.
  unfold sessionSwitchMatch. intros H.
  apply exec_inv in H. destruct H as (pre & s0 & -> & H).
  unfold switchPattern in H. rewrite run_Seq_eq in H.
  apply run_verb_inv in H. destruct H as (v & p & s1 & -> & _ & _ & H).
  rewrite run_Seq_eq in H. apply run_Plus_longest in H.
  destruct H as (w & s2 & -> & _ & _ & H & Hmax).
  (* the name starts where a run of white space has stopped *)
  assert (Hname : exists skipped s3,
             s2 = skipped ++ s3 /\
             run (Seq (Group (PlusLazy dot)) tailPattern) s3 None accept
             = Some cap /\
             forall m e, s3 = m ++ e -> m <> [] ->
                         Forall (fun c => is_space c = true) m ->
                         same_letters e (units "session") -> False).
  { rewrite run_Seq_eq in H. apply run_Opt_inv in H. destruct H as [H|H].
    - rewrite run_Seq_eq in H. apply run_Str_inv in H.
      destruct H as (t & s' & -> & _ & H).
      apply run_Plus_longest in H.
      destruct H as (w' & s3 & -> & _ & _ & H & Hmax').
      exists (t ++ w'), s3. rewrite <- app_assoc. repeat split; auto.
      intros m e -> Hne Hm He.
      apply (@session_is_a_name e None He). apply (Hmax' m e); auto.
    - exists [], s2. repeat split; auto.
      intros m e -> Hne Hm He.
      specialize (Hmax m e eq_refl Hne Hm).
      rewrite run_Seq_eq in Hmax. apply run_Opt_none in Hmax.
      apply (@session_is_a_name e None He). exact Hmax. }
  destruct Hname as (skipped & s3 & -> & H3 & Hstop).
  rewrite run_Seq_eq in H3. apply run_Group_PlusLazy_inv in H3.
  destruct H3 as (g & s4 & -> & Hne & Hdot & H4).
  apply run_tail_inv in H4. destruct H4 as [-> Htail].
  exists (pre ++ v ++ w ++ skipped), g, s4.
  repeat split; auto.
  - rewrite <- !app_assoc. reflexivity.
  - intros Hg. destruct Htail as [E | (w4 & e & -> & Hw4 & Hsp & He)]; [exact E|].
    exfalso. apply (Hstop (g ++ w4) e).
    + rewrite app_assoc. reflexivity.
    + destruct g; [congruence | discriminate].
    + apply Forall_app. auto.
    + exact He.
Qed.

End CaptureFacts.

(** ** Every turn of the widget *)

Section TurnFacts.
Import JS RegExp ChatInterface.

Variable props : ChatInterfaceProps.
Variable env : Env.
Variable st : State.

(** X1: The guard: a click is ignored, state and all, when the input is
    empty or white space only, when nobody is signed in, or while a turn
    is in flight. *)
Theorem ignored_click :
  Forall (fun c => is_space c = true) (inputMessage st) \/
  auth_user env = None \/ isLoading st = true ->
  handleSendMessage props env st = (st, []).
Proof.
  unfold handleSendMessage. intros [H|[H|H]].
  - rewrite (all_space_trim H). destruct (auth_user env); reflexivity.
  - rewrite H. reflexivity.
  - rewrite H, orb_true_r. destruct (auth_user env); reflexivity.
Qed.

Variable u : User.
Hypothesis signed_in : auth_user env = Some u.

(** X2: The send button is disabled exactly when a click on it would be
    ignored. *)
Theorem disabled_iff_ignored :
  sendDisabled st = true <-> handleSendMessage props env st = (st, []).
Proof.
  unfold sendDisabled, handleSendMessage. rewrite signed_in.
  destruct (negb (truthy_string (trim (inputMessage st))) || isLoading st);
    [tauto|].
  split; [discriminate|]. intros H. exfalso. revert H.
  destruct (sessionSwitchMatch _) as [[g|]|];
    destruct (onSessionSwitch props) as [cb|];
    try destruct (cb _); try destruct (sendChatMessage _ _ _ _);
    unfold failed; cbn [app]; intros [= _ E]; discriminate E.
Qed.

Hypothesis idle : isLoading st = false.
Hypothesis typed : trim (inputMessage st) <> [].

Let currentInput : jsstring := trim (inputMessage st).

Let userMessage : ChatMessage :=
  mkChatMessage (toString (now_submit env)) user currentInput (now_submit env).

Lemma started : negb (truthy_string (trim (inputMessage st))) || isLoading st = false.
Proof.
  rewrite idle. destruct (trim (inputMessage st)); [congruence | reflexivity].
Qed.

(** X3: A started turn appends the user's trimmed message to the
    transcript and empties the input at once.  A session switch is over
    by then, loading off, with one message of the assistant exactly when
    no error notice was raised.  A general query has called the chat
    service and waits for it with loading on; whatever state the widget
    is in when the service settles, the rest of the turn turns loading
    off, leaves the input alone and either appends the answer to the
    transcript of that moment, as one message of the assistant, or raises
    the error notice and appends nothing.  Run without anything in
    between, the two parts are [handleSendMessage]. *)
Theorem turn_outcome :
  let '(st1, done, progress) := start props env st in
  inputMessage st1 = [] /\
  exists rest,
    messages st1 = messages st ++ userMessage :: rest /\
    match progress with
    | Finished =>
        isLoading st1 = false /\
        handleSendMessage props env st = (st1, done) /\
        ((rest = [] /\ In (ToastError toastText) done) \/
         (exists answer, rest = [answer] /\ msg_role answer = assistant /\
                         ~ In (ToastError toastText) done))
    | Awaiting message userId sessionId =>
        rest = [] /\ isLoading st1 = true /\
        done = [CallSendChatMessage message userId sessionId] /\
        message = currentInput /\
        handleSendMessage props env st
        = (let (st2, done2) :=
             settle env (sendChatMessage env message userId sessionId) st1 in
           (st2, done ++ done2)) /\
        forall (answer : outcome jsstring) (mid : State),
          let (st2, done2) := settle env answer mid in
          isLoading st2 = false /\ inputMessage st2 = inputMessage mid /\
          match answer with
          | Returns aiResponse =>
              (exists m, messages st2 = messages mid ++ [m] /\
                         msg_role m = assistant /\
                         msg_content m = aiResponse) /\
              done2 = []
          | Throws =>
              messages st2 = messages mid /\
              done2 = [ToastError toastText; ConsoleError]
          end
    end.
Proof.
  unfold start, handleSendMessage. rewrite signed_in, started.
  fold currentInput.
  assert (Hwait :
    inputMessage (mkState (messages st ++ [userMessage]) [] true) = [] /\
    exists rest,
      messages (mkState (messages st ++ [userMessage]) [] true)
      = messages st ++ userMessage :: rest /\
      rest = [] /\
      isLoading (mkState (messages st ++ [userMessage]) [] true) = true /\
      [CallSendChatMessage currentInput (user_id u) (currentSessionId props)]
      = [CallSendChatMessage currentInput (user_id u) (currentSessionId props)] /\
      currentInput = currentInput /\
      match sendChatMessage env currentInput (user_id u)
                            (currentSessionId props) with
      | Returns aiResponse =>
          (mkState (messages (mkState (messages st ++ [userMessage]) [] true)
                    ++ [mkChatMessage (toString (now_reply env + 1)) assistant
                                      aiResponse (now_reply env)]) [] false,
           [CallSendChatMessage currentInput (user_id u)
                                (currentSessionId props)])
      | Throws =>
          failed (mkState (messages st ++ [userMessage]) [] true)
                 [CallSendChatMessage currentInput (user_id u)
                                      (currentSessionId props)]
      end
      = (let (st2, done2) :=
           settle env (sendChatMessage env currentInput (user_id u)
                                       (currentSessionId props))
                  (mkState (messages st ++ [userMessage]) [] true) in
         (st2,
          [CallSendChatMessage currentInput (user_id u)
                               (currentSessionId props)] ++ done2)) /\
      forall (answer : outcome jsstring) (mid : State),
        let (st2, done2) := settle env answer mid in
        isLoading st2 = false /\ inputMessage st2 = inputMessage mid /\
        match answer with
        | Returns aiResponse =>
            (exists m, messages st2 = messages mid ++ [m] /\
                       msg_role m = assistant /\
                       msg_content m = aiResponse) /\
            done2 = []
        | Throws =>
            messages st2 = messages mid /\
            done2 = [ToastError toastText; ConsoleError]
        end).
  { split; [reflexivity|]. exists []. do 5 (split; [reflexivity|]). split.
    - destruct (sendChatMessage _ _ _ _); reflexivity.
    - intros [aiResponse|] mid; cbn; repeat split.
      eexists. repeat split. }
  assert (Hfail : forall done,
    let (st', done') :=
      failed (mkState (messages st ++ [userMessage]) [] true) done in
    inputMessage st' = [] /\
    exists rest,
      messages st' = messages st ++ userMessage :: rest /\
      isLoading st' = false /\
      failed (mkState (messages st ++ [userMessage]) [] true) done
      = (st', done') /\
      ((rest = [] /\ In (ToastError toastText) done') \/
       (exists answer, rest = [answer] /\ msg_role answer = assistant /\
                       ~ In (ToastError toastText) done'))).
  { intros done. unfold failed. cbn [messages inputMessage isLoading].
    split; [reflexivity|]. exists []. do 3 (split; [reflexivity|]).
    left. split; [reflexivity|].
    apply in_or_app. right. left. reflexivity. }
  destruct (sessionSwitchMatch currentInput) as [[g|]|];
    destruct (onSessionSwitch props) as [cb|];
    try exact Hwait; try apply Hfail.
  destruct (cb (trim g)); [|apply Hfail].
  cbn [messages inputMessage isLoading].
  split; [reflexivity|]. eexists.
  split; [rewrite <- app_assoc; reflexivity|].
  do 2 (split; [reflexivity|]).
  right. eexists. do 2 (split; [reflexivity|]).
  intros [H|[]]. discriminate.
Qed.

(** X4: A started turn makes exactly one call to a collaborator: the
    session-switch callback or the chat service, never both and never
    neither; the chat service gets the trimmed input, the id of the user
    and the current session id. *)
Theorem one_call_per_turn :
  let done := snd (handleSendMessage props env st) in
  (exists name, calls done = [CallOnSessionSwitch name] /\
                onSessionSwitch props <> None) \/
  calls done = [CallSendChatMessage currentInput (user_id u)
                                    (currentSessionId props)].
Proof.
  unfold handleSendMessage. rewrite signed_in, started. fold currentInput.
  destruct (sessionSwitchMatch currentInput) as [cap|] eqn:Em.
  - destruct (@sessionSwitchMatch_group _ _ Em) as (g & ->).
    destruct (onSessionSwitch props) as [cb|].
    + left. exists (trim g). split; [|discriminate].
      destruct (cb (trim g)); reflexivity.
    + right. destruct (sendChatMessage _ _ _ _); reflexivity.
  - right.
    destruct (onSessionSwitch props); destruct (sendChatMessage _ _ _ _);
      reflexivity.
Qed.

(** X5: The name given to the session-switch callback is never empty, has no
    white space around it and no line terminator in it, and stands in
    the typed message as it is. *)
Theorem callback_name_is_clean (name : jsstring) :
  In (CallOnSessionSwitch name) (snd (handleSendMessage props env st)) ->
  name <> [] /\ trim name = name /\
  Forall (fun c => is_line_terminator c = false) name /\
  exists before after, inputMessage st = before ++ name ++ after.
Proof.
  unfold handleSendMessage. rewrite signed_in, started. fold currentInput.
  intros Hin.
  assert (Hg : exists g, sessionSwitchMatch currentInput = Some (Some g) /\
                         name = trim g).
  { destruct (sessionSwitchMatch currentInput) as [[g|]|];
      destruct (onSessionSwitch props) as [cb|];
      try destruct (cb _); try destruct (sendChatMessage _ _ _ _);
      unfold failed in Hin; cbn [snd app] in Hin;
      repeat (destruct Hin as [Hin|Hin]; try discriminate Hin);
      try contradiction;
      injection Hin as <-; eauto. }
  destruct Hg as (g & Em & ->).
  apply sessionSwitchMatch_inv in Em.
  destruct Em as (before & g' & after & [= <-] & Es & Hne & Hdot & Hsp).
  destruct (trim_split g) as (a & b & Eg & Ha & Hb).
  assert (Hnonempty : trim g <> []).
  { intros E. pose proof (trim_empty _ E) as Hall.
    specialize (Hsp Hall). subst after. rewrite app_nil_r in Es.
    destruct (@trim_fixed currentInput typed (trim_idempotent _))
      as (_ & n0 & z & En & Hz).
    destruct (exists_last Hne) as (g0 & y & ->).
    rewrite En, app_assoc in Es. apply app_inj_tail in Es.
    destruct Es as [_ ->].
    apply Forall_app in Hall. destruct Hall as [_ Hall].
    inversion Hall; congruence. }
  split; [exact Hnonempty|]. split; [apply trim_idempotent|]. split.
  - rewrite Eg in Hdot. apply Forall_app in Hdot. destruct Hdot as [_ Hdot].
    apply Forall_app in Hdot. destruct Hdot as [Hdot _].
    apply Forall_impl with (2 := Hdot). unfold dot. intros c Hc.
    destruct (is_line_terminator c); [discriminate | reflexivity].
  - destruct (trim_split (inputMessage st)) as (a' & b' & Ei & _ & _).
    fold currentInput in Ei. rewrite Es, Eg in Ei.
    exists (a' ++ before ++ a), (b ++ after ++ b').
    rewrite Ei, <- !app_assoc. reflexivity.
Qed.

End TurnFacts.

(** ** Every run of the edge functions *)

Section RunFacts.
Import JS Edge.
Context {R : Rounding}.

Ltac step := cbn [bind perform lift ret throw error data fst snd].

Ltac branch :=
  match goal with
  | |- context [fetch ?w ?x] => destruct (fetch w x)
  | |- context [ok ?x] => destruct (ok x)
  | |- context [http_json ?x] => destruct (http_json x)
  | |- context [first_content ?x] => destruct (first_content x)
  end.

Lemma or_text_nonempty content fallback :
  fallback <> [] -> or_text content fallback <> [].
Proof. destruct content as [[|c t]|]; simpl; auto; discriminate. Qed.

(** X6: The answers of the chat function: every one carries the CORS
    headers; it is the empty 200 of the preflight, made without a single
    call, exactly for [OPTIONS]; otherwise a 200 with a reply that is
    never empty, or a 500 with the fixed [error] text. *)
Theorem chat_response_shape (w : World) (req : Request AiChat.ChatRequest) :
  let (response, done) := AiChat.serve w req in
  cors response = true /\
  (method req = units "OPTIONS" /\
   response = mkResponse 200 true NoBody /\ done = [] \/
   method req <> units "OPTIONS" /\
   ((exists message usage,
       response = mkResponse 200 true (ChatReply message usage) /\
       message <> []) \/
    (exists details,
       response = mkResponse 500 true
                    (Failure (units "Failed to process chat request") details)))).
Proof.
  unfold AiChat.serve, string_eqb.
  destruct (list_eq_dec N.eq_dec (method req) (units "OPTIONS")) as [E|E].
  - split; [reflexivity|]. left. auto.
  - unfold respond. destruct (AiChat.attempt w req) as [[b|m] done] eqn:Ea.
    + split; [reflexivity|]. right. split; [exact E|]. left.
      revert Ea. unfold AiChat.attempt, select_sessions_of_user,
        select_trades_of_user, answer, require_key, complete.
      destruct (json req); step; [|discriminate].
      destruct (sessions_error (database w)); step; [discriminate|].
      destruct (trades_error (database w)); step; [discriminate|].
      destruct (OPENAI_API_KEY w) as [[|c key]|]; step; try discriminate.
      repeat (branch; step); try discriminate.
      intros [= <- _]. do 2 eexists. split; [reflexivity|].
      apply or_text_nonempty. discriminate.
    + split; [reflexivity|]. right. split; [exact E|]. right. eauto.
Qed.

(** X7: The same for the summary function. *)
Theorem summary_response_shape
        (w : World) (req : Request SessionSummary.SummaryRequest) :
  let (response, done) := SessionSummary.serve w req in
  cors response = true /\
  (method req = units "OPTIONS" /\
   response = mkResponse 200 true NoBody /\ done = [] \/
   method req <> units "OPTIONS" /\
   ((exists summary usage,
       response = mkResponse 200 true (SummaryReply summary usage) /\
       summary <> []) \/
    (exists details,
       response = mkResponse 500 true
                    (Failure (units "Failed to generate session summary")
                             details)))).
Proof.
  unfold SessionSummary.serve, string_eqb.
  destruct (list_eq_dec N.eq_dec (method req) (units "OPTIONS")) as [E|E].
  - split; [reflexivity|]. left. auto.
  - unfold respond.
    destruct (SessionSummary.attempt w req) as [[b|m] done] eqn:Ea.
    + split; [reflexivity|]. right. split; [exact E|]. left.
      revert Ea. unfold SessionSummary.attempt, select_trades_of_session,
        answer, require_key, complete.
      destruct (json req); step; [|discriminate].
      destruct (select_single_session _ _ _) as [[session|] [e|]]; step;
        try discriminate.
      destruct (trades_error (database w)); step; [discriminate|].
      destruct (OPENAI_API_KEY w) as [[|c key]|]; step; try discriminate.
      repeat (branch; step); try discriminate.
      intros [= <- _]. do 2 eexists. split; [reflexivity|].
      apply or_text_nonempty. discriminate.
    + split; [reflexivity|]. right. split; [exact E|]. right. eauto.
Qed.


Lemma string_eqb_eq a b : string_eqb a b = true <-> a = b.
Proof.
  unfold string_eqb. destruct (list_eq_dec N.eq_dec a b); split; congruence.
Qed.

(** Either no completion is requested, or the request was read, both
    queries answered, a key is configured and one request is sent. *)
Lemma chat_requests_when w (req : Request AiChat.ChatRequest) :
  requests (snd (AiChat.serve w req)) = [] \/
  exists r c key,
    string_eqb (method req) (units "OPTIONS") = false /\
    json req = Ok r /\
    sessions_error (database w) = None /\
    trades_error (database w) = None /\
    OPENAI_API_KEY w = Some (c :: key).
Proof.
  destruct (string_eqb (method req) (units "OPTIONS")) eqn:Em;
    [left; unfold AiChat.serve; rewrite Em; reflexivity|].
  destruct (json req) as [r|m] eqn:Ej;
    [|left; unfold AiChat.serve, AiChat.attempt, respond; rewrite Em, Ej;
      reflexivity].
  destruct (sessions_error (database w)) eqn:Es;
    [left; unfold AiChat.serve, AiChat.attempt, respond,
       select_sessions_of_user, answer; rewrite Em, Ej, Es; reflexivity|].
  destruct (trades_error (database w)) eqn:Et;
    [left; unfold AiChat.serve, AiChat.attempt, respond,
       select_sessions_of_user, select_trades_of_user, answer;
     rewrite Em, Ej, Es, Et; reflexivity|].
  destruct (chat_requests w req) as [E | (c & key & _ & _ & Ek & _)];
    [left; exact E|].
  right. exists r, c, key. auto.
Qed.

(** X8: A completion is requested at most once in a run, and only once the
    request was read and both queries have answered; the request carries
    the configured key as bearer, the model and the temperature of the
    source, the system prompt, and the message of the user as it came. *)
Theorem chat_request_shape (w : World) (req : Request AiChat.ChatRequest)
        (sent : CompletionRequest) :
  In sent (requests (snd (AiChat.serve w req))) ->
  requests (snd (AiChat.serve w req)) = [sent] /\
  sessions_error (database w) = None /\
  trades_error (database w) = None /\
  OPENAI_API_KEY w = Some (bearer sent) /\ bearer sent <> [] /\
  model sent = units "gpt-4o-mini" /\ (temperature sent == 7 # 10)%Q /\
  exists r prompt,
    json req = Ok r /\
    request_messages sent
    = [(system, ChatSystemPrompt prompt); (user, Text (AiChat.message r))].
Proof.
  intros Hin.
  destruct (chat_requests_when w req)
    as [E | (r & c & key & Hm & Hj & Hs & Ht & Hk)];
    [rewrite E in Hin; destruct Hin|].
  pose proof (@chat_request_sent R w req r c key Hm Hj Hs Ht Hk) as E.
  rewrite E in Hin. destruct Hin as [<-|[]].
  repeat split; auto; try discriminate; try reflexivity.
  do 2 eexists. split; [exact Hj | reflexivity].
Qed.

(** X9: The summary function requests a completion at most once in a run,
    with the configured key as bearer, and what it sends is a system
    prompt alone: there is no message of a user in it. *)
Theorem summary_request_shape
        (w : World)
        (req : Request SessionSummary.SummaryRequest)
        (sent : CompletionRequest) :
  In sent (requests (snd (SessionSummary.serve w req))) ->
  requests (snd (SessionSummary.serve w req)) = [sent] /\
  OPENAI_API_KEY w = Some (bearer sent) /\ bearer sent <> [] /\
  model sent = units "gpt-4o-mini" /\
  exists prompt,
    request_messages sent = [(system, SummarySystemPrompt prompt)].
Proof.
  intros Hin.
  destruct (summary_requests w req) as [E | (c & key & p & Hk & E)];
    rewrite E in Hin; [destruct Hin|].
  destruct Hin as [<-|[]].
  repeat split; auto; try discriminate. eexists. reflexivity.
Qed.

End RunFacts.

Lemma Some_eq (A : Type) (a b : A) : Some a = Some b -> a = b.
Proof. congruence. Qed.

Lemma In_firstn (A : Type) (n : nat) (l : list A) (x : A) :
  In x (firstn n l) -> In x l.
Proof.
  intros H. rewrite <- (firstn_skipn n l). apply in_or_app. auto.
Qed.

(** ** The chat function, step by step *)

Section ChatSteps.
Import JS Edge.
Context {R : Rounding}.

Ltac step := cbn [bind perform lift ret throw error data fst snd app].

Variable w : World.
Variable req : Request AiChat.ChatRequest.
Variable r : AiChat.ChatRequest.

Hypothesis posted : string_eqb (method req) (units "OPTIONS") = false.
Hypothesis read : json req = Ok r.

Let label : jsstring := units "Error in AI chat function:".
Let generic : jsstring := units "Failed to process chat request".
Let select_sessions : Effect :=
  Select (units "trading_sessions") [(units "user_id", AiChat.userId r)].
Let select_trades : Effect :=
  Select (units "trades") [(units "trading_sessions.user_id", AiChat.userId r)].

(** X10: A failing query ends the run at once: after a failure on the
    sessions the trades are not queried, after a failure on either no
    completion is requested, and the response carries a fixed text, not
    the error of the store. *)
Theorem chat_store_failure :
  (forall e, sessions_error (database w) = Some e ->
     AiChat.serve w req
     = (mkResponse 500 true (Failure generic (units "Failed to fetch sessions")),
        [select_sessions; ConsoleError (units "Sessions error:");
         ConsoleError label])) /\
  (forall e, sessions_error (database w) = None ->
     trades_error (database w) = Some e ->
     AiChat.serve w req
     = (mkResponse 500 true (Failure generic (units "Failed to fetch trades")),
        [select_sessions; select_trades; ConsoleError (units "Trades error:");
         ConsoleError label])).
Proof.
  split.
  - intros e He.
    unfold AiChat.serve, AiChat.attempt, respond, select_sessions_of_user, answer.
    rewrite posted, read, He. reflexivity.
  - intros e Hs He.
    unfold AiChat.serve, AiChat.attempt, respond, select_sessions_of_user,
      select_trades_of_user, answer.
    rewrite posted, read, Hs, He. reflexivity.
Qed.

Variable c : N.
Variable key : jsstring.

Hypothesis sessions_answer : sessions_error (database w) = None.
Hypothesis trades_answer : trades_error (database w) = None.
Hypothesis configured : OPENAI_API_KEY w = Some (c :: key).

Let sessions : list TradingSession :=
  order_desc ts_created_at
    (filter (fun s => string_eqb (ts_user_id s) (AiChat.userId r))
            (trading_sessions (database w))).

Let trades_ : list JoinedTrade :=
  order_desc (fun t => created_at (jt_trade t))
    (flat_map (join_user (database w) (AiChat.userId r)) (trades (database w))).

Let request : CompletionRequest :=
  mkCompletionRequest (c :: key) (units "gpt-4o-mini")
    [(system, ChatSystemPrompt (AiChat.systemPrompt w (Some sessions) (Some trades_)));
     (user, Text (AiChat.message r))]
    1000 (7 # 10).

Lemma chat_reaches_backend :
  AiChat.serve w req
  = respond label generic
      (let (result, more) :=
         match fetch w request with
         | Ok openAIResponse =>
             if ok openAIResponse
             then
               match http_json openAIResponse with
               | Ok aiData =>
                   match first_content aiData with
                   | Ok content =>
                       (Ok (ChatReply (or_text content AiChat.fallback)
                                      (usage aiData)), [])
                   | Err message => (Err message, [])
                   end
               | Err message => (Err message, [])
               end
             else
               (Err (units "OpenAI API request failed: " ++
                     toString (http_status openAIResponse)),
                [ConsoleError (units "OpenAI API error:")])
         | Err message => (Err message, [])
         end in
       (result, select_sessions :: select_trades :: Fetch request :: more)).
Proof.
  unfold AiChat.serve, AiChat.attempt, select_sessions_of_user,
    select_trades_of_user, answer, require_key, complete.
  rewrite posted, read, sessions_answer, trades_answer, configured. step.
  fold sessions. fold trades_. fold request. fold label. fold generic.
  f_equal.
  destruct (fetch w request) as [resp|m]; step; [|reflexivity].
  destruct (ok resp); step; [|reflexivity].
  destruct (http_json resp) as [d|]; step; [destruct (first_content d)|]; reflexivity.
Qed.


(** X12: A 2xx answer whose body has a [choices] array is passed on:
    the content of the first choice as it is, with the usage figures;
    when there is no choice, no message, no content or an empty content,
    the fixed apology instead.  A 2xx answer whose body is [null], or has
    no [choices] member or a [null] one, makes the read of [choices[0]]
    throw: the run fails with a 500 after its single request. *)
Theorem chat_reply (answer : HttpResponse) (aiData : AiData) :
  fetch w request = Ok answer -> ok answer = true ->
  http_json answer = Ok aiData ->
  (forall listed figures,
     aiData = JsonObject (ChoiceList listed) figures ->
     exists text,
       AiChat.serve w req
       = (mkResponse 200 true (ChatReply text figures),
          [select_sessions; select_trades; Fetch request]) /\
       (forall first rest content,
          listed = first :: rest ->
          message_content first = Some (Some content) -> content <> [] ->
          text = content) /\
       (listed = [] \/
        (exists first rest,
           listed = first :: rest /\
           (message_content first = None \/ message_content first = Some None \/
            message_content first = Some (Some []))) ->
        text = units "Sorry, I could not process your request.")) /\
  (aiData = JsonNull \/
   (exists figures, aiData = JsonObject NoChoices figures \/
                    aiData = JsonObject NullChoices figures) ->
   exists details,
     AiChat.serve w req
     = (mkResponse 500 true (Failure generic details),
        [select_sessions; select_trades; Fetch request; ConsoleError label])).
Proof.
  intros E Hok Hj. rewrite chat_reaches_backend, E, Hok, Hj. split.
  - intros listed figures ->. eexists. split; [reflexivity|]. split.
    + intros first rest content -> Hm Hne. rewrite Hm.
      destruct content; [congruence | reflexivity].
    + intros [-> | (first & rest & -> & [-> | [-> | ->]])]; reflexivity.
  - intros [-> | (figures & [-> | ->])]; eexists; reflexivity.
Qed.

(** X13: Only the user's own rows reach the prompt: every session shown
    belongs to the user of the request, and every trade shown is a trade
    of the store whose session is one of that user's. *)
Theorem chat_prompt_isolation :
  exists prompt,
    requests (snd (AiChat.serve w req))
    = [mkCompletionRequest (c :: key) (units "gpt-4o-mini")
         [(system, ChatSystemPrompt prompt); (user, Text (AiChat.message r))]
         1000 (7 # 10)] /\
    (forall shown s,
       cp_recentSessions prompt = Some shown -> In s shown ->
       In s (trading_sessions (database w)) /\
       ts_user_id s = AiChat.userId r) /\
    (forall shown t,
       cp_recentTrades prompt = Some shown -> In t shown ->
       In (jt_trade t) (trades (database w)) /\
       jt_session_user_id t = AiChat.userId r /\
       exists s,
         In s (trading_sessions (database w)) /\
         ts_id s = session_id (jt_trade t) /\
         ts_user_id s = AiChat.userId r /\ jt_session_name t = ts_name s).
Proof.
  eexists. split.
  - apply (@chat_request_sent R w req r c key posted read sessions_answer
                              trades_answer configured).
  - unfold select_sessions_of_user, select_trades_of_user, answer.
    rewrite sessions_answer, trades_answer.
    cbn [data AiChat.systemPrompt cp_recentSessions cp_recentTrades option_map].
    split.
    + intros shown s E Hin. rewrite <- (Some_eq E) in Hin.
      apply In_firstn in Hin.
      apply (Permutation_in _ (Permutation_sym (order_desc_perm _ _))) in Hin.
      apply filter_In in Hin. destruct Hin as [Hin Hu].
      apply string_eqb_eq in Hu. auto.
    + intros shown t E Hin. rewrite <- (Some_eq E) in Hin.
      apply In_firstn in Hin.
      apply (Permutation_in _ (Permutation_sym (order_desc_perm _ _))) in Hin.
      apply in_flat_map in Hin. destruct Hin as (t0 & Ht0 & Hin).
      unfold join_user, session_of in Hin.
      destruct (find _ (trading_sessions (database w))) as [s|] eqn:Ef;
        [|destruct Hin].
      apply find_some in Ef. destruct Ef as [Hs Hid].
      apply string_eqb_eq in Hid.
      destruct (string_eqb (ts_user_id s) (AiChat.userId r)) eqn:Hu;
        [|destruct Hin].
      apply string_eqb_eq in Hu.
      destruct Hin as [<-|[]]. cbn [jt_trade jt_session_user_id jt_session_name].
      repeat split; auto. exists s. auto.
Qed.

End ChatSteps.

(** ** The summary function, step by step *)

Section SummarySteps.
Import JS Edge.
Context {R : Rounding}.

Ltac step := cbn [bind perform lift ret throw error data fst snd app].

Variable w : World.
Variable req : Request SessionSummary.SummaryRequest.
Variable r : SessionSummary.SummaryRequest.

Hypothesis posted : string_eqb (method req) (units "OPTIONS") = false.
Hypothesis read : json req = Ok r.

Let label : jsstring := units "Error generating session summary:".
Let generic : jsstring := units "Failed to generate session summary".
Let select_session : Effect :=
  Select (units "trading_sessions")
         [(units "id", SessionSummary.sessionId r);
          (units "user_id", SessionSummary.userId r)].
Let select_trades : Effect :=
  Select (units "trades") [(units "session_id", SessionSummary.sessionId r)].

Let owned (s : TradingSession) : bool :=
  string_eqb (ts_id s) (SessionSummary.sessionId r) &&
  string_eqb (ts_user_id s) (SessionSummary.userId r).

(** X14: Without a session of that id owned by that user, be it unknown or
    another user's, and also when the store fails on the lookup, the run
    ends with "Session not found": no trade is read and no completion is
    requested. *)
Theorem summary_session_not_found :
  (forall s, In s (trading_sessions (database w)) ->
             ~ (ts_id s = SessionSummary.sessionId r /\
                ts_user_id s = SessionSummary.userId r)) \/
  sessions_error (database w) <> None ->
  SessionSummary.serve w req
  = (mkResponse 500 true (Failure generic (units "Session not found")),
     [select_session; ConsoleError (units "Session error:");
      ConsoleError label]).
Proof.
  intros H.
  assert (E : exists e,
             select_single_session (database w) (SessionSummary.sessionId r)
                                   (SessionSummary.userId r)
             = mkQueryResult None (Some e)).
  { unfold select_single_session.
    destruct (sessions_error (database w)) as [e|] eqn:Ee; [eauto|].
    destruct H as [H|H]; [|congruence].
    assert (Hf : filter (fun s => string_eqb (ts_id s) (SessionSummary.sessionId r) &&
                                  string_eqb (ts_user_id s) (SessionSummary.userId r))
                        (trading_sessions (database w)) = []).
    { induction (trading_sessions (database w)) as [|s l IH]; [reflexivity|].
      simpl. destruct (string_eqb (ts_id s) _ && string_eqb (ts_user_id s) _) eqn:Hs.
      - exfalso. apply andb_true_iff in Hs. destruct Hs as [H1 H2].
        apply string_eqb_eq in H1. apply string_eqb_eq in H2.
        apply (H s); simpl; auto.
      - apply IH. intros s' Hs'. apply H. simpl. auto. }
    rewrite Hf. eauto. }
  destruct E as (e & E).
  unfold SessionSummary.serve, SessionSummary.attempt, respond.
  rewrite posted, read. step. rewrite E. reflexivity.
Qed.

Variable session : TradingSession.
Variable c : N.
Variable key : jsstring.

Hypothesis sessions_answer : sessions_error (database w) = None.
Hypothesis found : filter owned (trading_sessions (database w)) = [session].
Hypothesis trades_answer : trades_error (database w) = None.
Hypothesis configured : OPENAI_API_KEY w = Some (c :: key).

Let of_session (t : Trade) : bool :=
  string_eqb (session_id t) (SessionSummary.sessionId r).

(** X15: The prompt of a summary is about that one session of that user and
    about all of its trades: every trade of the session and no other,
    the newest first, none left out, counted in full. *)
Theorem summary_prompt_covers_session :
  exists prompt listed,
    requests (snd (SessionSummary.serve w req))
    = [mkCompletionRequest (c :: key) (units "gpt-4o-mini")
         [(system, SummarySystemPrompt prompt)] 800 (7 # 10)] /\
    sp_session prompt = session /\
    In session (trading_sessions (database w)) /\
    ts_id session = SessionSummary.sessionId r /\
    ts_user_id session = SessionSummary.userId r /\
    sp_trades prompt = Some listed /\
    Permutation listed (filter of_session (trades (database w))) /\
    StronglySorted (fun a b => (created_at b <= created_at a)%Z) listed /\
    sp_totalTrades prompt = length (filter of_session (trades (database w))).
Proof.
  assert (Hs : In session (filter owned (trading_sessions (database w))))
    by (rewrite found; left; reflexivity).
  apply filter_In in Hs. destruct Hs as [Hin Ho].
  unfold owned in Ho. apply andb_true_iff in Ho. destruct Ho as [H1 H2].
  apply string_eqb_eq in H1. apply string_eqb_eq in H2.
  exists (SessionSummary.systemPrompt session
            (Some (order_desc created_at
                     (filter of_session (trades (database w)))))),
         (order_desc created_at (filter of_session (trades (database w)))).
  split; [|repeat split; auto].
  - unfold SessionSummary.serve, SessionSummary.attempt, respond,
      select_single_session, select_trades_of_session, answer, require_key,
      complete.
    pose proof found as Hf. unfold owned in Hf.
    rewrite posted, read, sessions_answer. step. rewrite Hf.
    rewrite trades_answer, configured. step.
    destruct (fetch w _) as [resp|m]; step; [|reflexivity].
    destruct (ok resp); step; [|reflexivity].
    destruct (http_json resp) as [d|]; step; [destruct (first_content d)|]; reflexivity.
  - symmetry. apply order_desc_perm.
  - apply order_desc_sorted.
  - cbn [SessionSummary.systemPrompt sp_totalTrades].
    unfold SessionSummary.totalTrades. cbn [option_map].
    rewrite or0_nat_Some. symmetry. apply Permutation_length, order_desc_perm.
Qed.

Let request : CompletionRequest :=
  mkCompletionRequest (c :: key) (units "gpt-4o-mini")
    [(system,
      SummarySystemPrompt
        (SessionSummary.systemPrompt session
           (Some (order_desc created_at
                    (filter of_session (trades (database w)))))))]
    800 (7 # 10).



End SummarySteps.

(** ** The two sets of statistics *)

Section StatisticsFacts.
Import JS Edge.
Local Open Scope Q_scope.
Context {R : Rounding}.

Lemma filter_map_length (A B : Type) (f : A -> B) (p : B -> bool) l :
  length (filter p (map f l)) = length (filter (fun a => p (f a)) l).
Proof.
  induction l as [|a l IH]; simpl; [reflexivity|].
  destruct (p (f a)); simpl; congruence.
Qed.

Lemma sum_by_map (A B : Type) (f : A -> B) (g : B -> number) l :
  sum_by g (map f l) = sum_by (fun a => g (f a)) l.
Proof.
  unfold sum_by. generalize zero.
  induction l as [|a l IH]; intros z; simpl; [reflexivity | apply IH].
Qed.

(** X17: The chat function and the summary function compute the same figures:
    on the same trades their counts, their net profit and their win rate
    agree. *)
Theorem statistics_agree (joined : option (list JoinedTrade)) :
  let trades := option_map (map jt_trade) joined in
  or0_nat (option_map (@length _) joined) = SessionSummary.totalTrades trades /\
  AiChat.totalProfit joined = SessionSummary.totalProfit trades /\
  AiChat.winningTrades joined = SessionSummary.winningTrades trades /\
  AiChat.losingTrades joined = SessionSummary.losingTrades trades /\
  AiChat.winRate joined = SessionSummary.winRate trades.
Proof.
  destruct joined as [l|]; [|repeat split].
  cbv zeta. cbn [option_map].
  assert (Hw : AiChat.winningTrades (Some l)
               = SessionSummary.winningTrades (Some (map jt_trade l))).
  { unfold AiChat.winningTrades, SessionSummary.winningTrades. cbn [option_map].
    rewrite filter_map_length. reflexivity. }
  assert (Hn : or0_nat (Some (length l))
               = SessionSummary.totalTrades (Some (map jt_trade l))).
  { unfold SessionSummary.totalTrades. cbn [option_map].
    rewrite length_map. reflexivity. }
  repeat split.
  - exact Hn.
  - unfold AiChat.totalProfit, SessionSummary.totalProfit. cbn [option_map].
    rewrite sum_by_map. reflexivity.
  - exact Hw.
  - unfold AiChat.losingTrades, SessionSummary.losingTrades. cbn [option_map].
    rewrite filter_map_length. reflexivity.
  - unfold AiChat.winRate, SessionSummary.winRate.
    rewrite <- Hw, <- Hn, or0_nat_Some. reflexivity.
Qed.

Context {RL : RoundingLaws R}.

Lemma rnd_eq x y : x == y -> rnd x == rnd y.
Proof.
  intros E. apply Qle_antisym; apply rnd_monotone; rewrite E; apply Qle_refl.
Qed.

Lemma filter_all (A : Type) (p : A -> bool) l :
  (forall a, In a l -> p a = true) -> filter p l = l.
Proof.
  induction l as [|a l IH]; simpl; intros H; [reflexivity|].
  rewrite (H a (or_introl eq_refl)). f_equal. apply IH. auto.
Qed.

Lemma filter_none (A : Type) (p : A -> bool) l :
  (forall a, In a l -> p a = false) -> filter p l = [].
Proof.
  induction l as [|a l IH]; simpl; intros H; [reflexivity|].
  rewrite (H a (or_introl eq_refl)). apply IH. auto.
Qed.

(** X18: The ends of the scale: when every trade of a session won, the win
    rate is 100; when none did, it is 0. *)
Theorem win_rate_extremes (l : list Trade) :
  (l <> [] -> (forall t, In t l -> gt0 (profit_loss t) = true) ->
   exists q, SessionSummary.winRate (Some l) = Num q /\ q == 100) /\
  ((forall t, In t l -> gt0 (profit_loss t) = false) ->
   exists q, SessionSummary.winRate (Some l) = Num q /\ q == 0).
Proof.
  unfold SessionSummary.winRate, SessionSummary.totalTrades,
    SessionSummary.winningTrades. cbn [option_map]. rewrite !or0_nat_Some.
  split.
  - intros Hne Hall. rewrite (filter_all _ _ Hall).
    destruct l as [|t l']; [congruence|]. cbn [length].
    assert (Hshare : rnd (inject_Z (Z.of_nat (S (length l')))
                          / inject_Z (Z.of_nat (S (length l')))) == 1).
    { transitivity (rnd 1); [apply rnd_eq | apply rnd_1].
      apply Qmult_inv_r. intros E.
      assert (Hp : 0 < inject_Z (Z.of_nat (S (length l'))))
        by (unfold Qlt; simpl; lia).
      rewrite E in Hp. discriminate. }
    assert (Hpercent : rnd (rnd (inject_Z (Z.of_nat (S (length l')))
                                 / inject_Z (Z.of_nat (S (length l')))) * 100)
                       == 100).
    { transitivity (rnd 100); [apply rnd_eq | apply rnd_100].
      transitivity (1 * 100); [|reflexivity].
      apply Qmult_comp; [exact Hshare | reflexivity]. }
    unfold div, of_nat. rewrite sign_of_positive.
    rewrite of_rounded_percent by (rewrite Hshare; split; discriminate).
    unfold mul.
    rewrite of_rounded_percent by (rewrite Hpercent; split; discriminate).
    eexists. split; [reflexivity | exact Hpercent].
  - intros Hnone. rewrite (filter_none _ _ Hnone). cbn [length].
    destruct (length l) as [|n]; [exists 0; split; reflexivity|].
    assert (Hshare : rnd (inject_Z (Z.of_nat 0) / inject_Z (Z.of_nat (S n)))
                     == 0).
    { transitivity (rnd 0); [apply rnd_eq | apply rnd_0].
      unfold Qdiv. apply Qmult_0_l. }
    assert (Hpercent : rnd (rnd (inject_Z (Z.of_nat 0)
                                 / inject_Z (Z.of_nat (S n))) * 100) == 0).
    { transitivity (rnd 0); [apply rnd_eq | apply rnd_0].
      transitivity (0 * 100); [|reflexivity].
      apply Qmult_comp; [exact Hshare | reflexivity]. }
    unfold div, of_nat. rewrite sign_of_positive.
    rewrite of_rounded_percent by (rewrite Hshare; split; discriminate).
    unfold mul.
    rewrite of_rounded_percent by (rewrite Hpercent; split; discriminate).
    eexists. split; [reflexivity | exact Hpercent].
Qed.

End StatisticsFacts.

(** ** The further properties on the sample data *)

Section FurtherWitnesses.
Import JS RegExp ChatInterface.

Let u1 : User := mkUser (units "u1").

Lemma ignored_click_witness :
  handleSendMessage Sample.with_callback Sample.signed_in (Sample.typed "   ")
  = (Sample.typed "   ", []).
Proof.
  apply (@ignored_click Sample.with_callback Sample.signed_in (Sample.typed "   ")).
  left. repeat constructor.
Defined.

Lemma disabled_iff_ignored_witness :
  sendDisabled (Sample.typed "") = true <->
  handleSendMessage Sample.with_callback Sample.signed_in (Sample.typed "")
  = (Sample.typed "", []).
Proof.
  exact (@disabled_iff_ignored Sample.with_callback Sample.signed_in
                               (Sample.typed "") u1 eq_refl).
Defined.

Lemma sample_typed :
  trim (inputMessage (Sample.typed "  Load the BTC 5 Minute session ")) <> [].
Proof. vm_compute. discriminate. Qed.

Lemma sample_question :
  trim (inputMessage (Sample.typed "How am I doing?")) <> [].
Proof. vm_compute. discriminate. Qed.

Lemma turn_outcome_witness :
  let waiting :=
    fst (fst (start Sample.without_callback Sample.signed_in
                    (Sample.typed "How am I doing?"))) in
  isLoading waiting = true /\
  exists m,
    messages (fst (settle Sample.signed_in (Returns (units "Well done."))
                          (clearChat waiting)))
    = [m] /\
    msg_role m = assistant /\ msg_content m = units "Well done.".
Proof.
  pose proof (@turn_outcome Sample.without_callback Sample.signed_in
                (Sample.typed "How am I doing?") u1
                eq_refl eq_refl sample_question) as H.
  vm_compute in H.
  destruct H as (_ & rest & _ & _ & Hloading & _ & _ & _ & Hsettle).
  split; [exact Hloading|].
  specialize (Hsettle
                (Returns (units "Well done."))
                (clearChat
                   (fst (fst (start Sample.without_callback Sample.signed_in
                                    (Sample.typed "How am I doing?")))))).
  vm_compute in Hsettle.
  destruct Hsettle as (_ & _ & (m & Hm & Hrole & Hcontent) & _).
  exists m. split; [exact Hm|]. split; [exact Hrole | exact Hcontent].
Defined.

Lemma one_call_per_turn_witness :
  (exists name,
     calls (snd (handleSendMessage
                   Sample.without_callback Sample.signed_in
                   (Sample.typed "  Load the BTC 5 Minute session ")))
     = [CallOnSessionSwitch name] /\
     onSessionSwitch Sample.without_callback <> None) \/
  calls (snd (handleSendMessage
                Sample.without_callback Sample.signed_in
                (Sample.typed "  Load the BTC 5 Minute session ")))
  = [CallSendChatMessage (units "Load the BTC 5 Minute session")
                         (units "u1") None].
Proof.
  exact (@one_call_per_turn Sample.without_callback Sample.signed_in
           (Sample.typed "  Load the BTC 5 Minute session ") u1
           eq_refl eq_refl sample_typed).
Defined.

Lemma callback_name_is_clean_witness :
  exists before after,
    units "  Load the BTC 5 Minute session "
    = before ++ units "BTC 5 Minute" ++ after.
Proof.
  refine (proj2 (proj2 (proj2
            (@callback_name_is_clean Sample.with_callback Sample.signed_in
               (Sample.typed "  Load the BTC 5 Minute session ") u1
               eq_refl eq_refl sample_typed (units "BTC 5 Minute") _)))).
  vm_compute. left. reflexivity.
Defined.

End FurtherWitnesses.

Section FurtherEdgeWitnesses.
Import JS Edge.
Local Open Scope Q_scope.

Let r1 : AiChat.ChatRequest :=
  AiChat.mkChatRequest (units "How am I doing?") None (units "u1").

Lemma chat_request_shape_witness :
  requests (snd (AiChat.serve (H := exact) Sample.world Sample.chat))
  = [Sample.chat_request].
Proof.
  refine (proj1 (@chat_request_shape exact Sample.world Sample.chat
                                     Sample.chat_request _)).
  vm_compute. left. reflexivity.
Defined.

Lemma summary_request_shape_witness :
  requests (snd (SessionSummary.serve (H := exact) Sample.world Sample.summary))
  = [Sample.summary_request].
Proof.
  refine (proj1 (@summary_request_shape exact Sample.world Sample.summary
                                        Sample.summary_request _)).
  vm_compute. left. reflexivity.
Defined.

Lemma chat_store_failure_witness :
  status (fst (AiChat.serve (H := exact) Sample.broken_world Sample.chat))
  = 500%N.
Proof.
  rewrite (proj1 (@chat_store_failure exact Sample.broken_world Sample.chat r1
                                      eq_refl eq_refl)
                 (units "connection refused") eq_refl).
  reflexivity.
Defined.


Lemma chat_reply_witness :
  body (fst (AiChat.serve (H := exact) Sample.silent_world Sample.chat))
  = ChatReply (units "Sorry, I could not process your request.") None /\
  status (fst (AiChat.serve (H := exact) Sample.choiceless_world Sample.chat))
  = 500%N.
Proof.
  split.
  - destruct (proj1 (@chat_reply exact Sample.silent_world Sample.chat r1
                       eq_refl eq_refl 115%N (units "k-sample")
                       eq_refl eq_refl eq_refl
                       Sample.silent (mkAiData [] None)
                       eq_refl eq_refl eq_refl)
                    [] None eq_refl)
      as (text & E & _ & Hfallback).
    rewrite E, (Hfallback (or_introl eq_refl)). reflexivity.
  - destruct (proj2 (@chat_reply exact Sample.choiceless_world Sample.chat r1
                       eq_refl eq_refl 115%N (units "k-sample")
                       eq_refl eq_refl eq_refl
                       Sample.choiceless (JsonObject NoChoices None)
                       eq_refl eq_refl eq_refl)
                    (or_intror (ex_intro _ None (or_introl eq_refl))))
      as (details & E).
    rewrite E. reflexivity.
Defined.

Lemma chat_prompt_isolation_witness :
  exists prompt,
    requests (snd (AiChat.serve (H := exact) Sample.busy_world Sample.chat))
    = [mkCompletionRequest (units "sk-sample") (units "gpt-4o-mini")
         [(system, ChatSystemPrompt prompt);
          (user, Text (units "How am I doing?"))]
         1000 (7 # 10)] /\
    forall shown s,
      cp_recentSessions prompt = Some shown -> In s shown ->
      ts_user_id s = units "u1".
Proof.
  destruct (@chat_prompt_isolation exact Sample.busy_world Sample.chat r1
              eq_refl eq_refl 115%N (units "k-sample")
              eq_refl eq_refl eq_refl)
    as (prompt & E & Hs & _).
  exists prompt. split; [exact E|].
  intros shown s Hshown Hin. exact (proj2 (Hs shown s Hshown Hin)).
Defined.

Lemma summary_session_not_found_witness :
  body (fst (SessionSummary.serve (H := exact) Sample.world
                                  Sample.foreign_summary))
  = Failure (units "Failed to generate session summary")
            (units "Session not found").
Proof.
  rewrite (@summary_session_not_found
             exact Sample.world Sample.foreign_summary
             (SessionSummary.mkSummaryRequest (units "s1") (units "u2"))
             eq_refl eq_refl).
  - reflexivity.
  - left. intros s [<-|[]] [_ H]. vm_compute in H. discriminate H.
Defined.

Lemma summary_prompt_covers_session_witness :
  exists prompt listed,
    requests (snd (SessionSummary.serve (H := exact) Sample.world
                                        Sample.summary))
    = [mkCompletionRequest (units "sk-sample") (units "gpt-4o-mini")
         [(system, SummarySystemPrompt prompt)] 800 (7 # 10)] /\
    sp_trades prompt = Some listed /\ sp_totalTrades prompt = 3%nat.
Proof.
  destruct (@summary_prompt_covers_session
              exact Sample.world Sample.summary
              (SessionSummary.mkSummaryRequest (units "s1") (units "u1"))
              eq_refl eq_refl Sample.session1 115%N (units "k-sample")
              eq_refl eq_refl eq_refl eq_refl)
    as (prompt & listed & E & _ & _ & _ & _ & Ht & _ & _ & Hn).
  exists prompt, listed. repeat split; assumption.
Defined.


Lemma win_rate_extremes_witness :
  exists q,
    SessionSummary.winRate (H := exact)
      (Some [Sample.trade "t1" 100 20; Sample.trade "t4" 30 50]) = Num q /\
    q == 100.
Proof.
  refine (proj1 (@win_rate_extremes exact exact_laws
                   [Sample.trade "t1" 100 20; Sample.trade "t4" 30 50]) _ _).
  - discriminate.
  - intros t [<-|[<-|[]]]; reflexivity.
Defined.

End FurtherEdgeWitnesses.
